(** * cognito-oauth2: the identity-token verification pipeline of main.go

    A shallow embedding of [src/main.go]: the Apple verifier
    ([fetchAppleJWKSet], [verifyAppleIDToken] and the key function it hands to
    [jwt.Parse]) and the two HTTP handlers ([loginWithAppleHandler],
    [loginWithGoogleHandler]).

    Go's [(value, error)] returns are the sum [result]; the outbound calls and
    the key-set lookups are recorded, in order, in an event log threaded through
    a state monad together with the process globals and the environment; the
    libraries the program imports (golang-jwt v4, jwx, idtoken, the Cognito
    client, encoding/json, fmt, time) are a record of oracles, [Env]. *)

From Stdlib Require Import ZArith QArith Ascii String.
From stdpp Require Import base strings gmap list.

Set Warnings "-register-all".

Open Scope Z_scope.
Open Scope string_scope.
Open Scope list_scope.

(** ** Go values *)

(** The double quote character, for the string literals of the source that
    contain it. *)
Definition dq : string := String "034"%char EmptyString.

(** A decoded JSON number is a float64; it is kept as the rational it denotes. *)
Definition float64 : Type := Q.

(** What encoding/json stores in an [interface{}]. *)
Inductive value : Type :=
| VNil
| VBool (b : bool)
| VNumber (f : float64)
| VString (s : string)
| VArray (l : list value)
| VObject (l : list (string * value)).

(** [jwt.MapClaims], the token header, and [idtoken.Payload.Claims]:
    [map[string]interface{}]. *)
Abbreviation MapClaims := (gmap string value).

(** The type assertions [x.(float64)] and [x.(string)] with the comma-ok form,
    on the result of a map index (a missing key indexes to nil). *)
Definition as_float64 (x : option value) : option float64 :=
  match x with Some (VNumber f) => Some f | _ => None end.

Definition as_string (x : option value) : option string :=
  match x with Some (VString s) => Some s | _ => None end.

(** ** Errors *)

(** Go error values: [errors.New] and [fmt.Errorf] without [%w] give an
    [errorString]; [fmt.Errorf] with [%w] a [wrapError] that keeps the wrapped
    error next to the formatted text; [ValidationError] is golang-jwt's. *)
Inductive error : Type :=
| errorString (s : string)
| wrapError (msg : string) (err : error)
| ValidationError (Inner : option error) (Errors : Z) (text : string).

(** The [Error()] method. *)
Fixpoint Error (e : error) : string :=
  match e with
  | errorString s => s
  | wrapError msg _ => msg
  | ValidationError (Some inner) _ _ => Error inner
  | ValidationError None _ text =>
      if bool_decide (text = EmptyString) then "token is invalid" else text
  end.

Definition errors_New (s : string) : error := errorString s.

(** [fmt.Errorf(prefix + "%w", err)]. *)
Definition Errorf_w (prefix : string) (err : error) : error :=
  wrapError (prefix +:+ Error err) err.

Inductive result (A : Type) : Type :=
| Ok (a : A)
| Err (e : error).
Arguments Ok {A} a.
Arguments Err {A} e.

Definition is_Err {A} (r : result A) : bool :=
  match r with Err _ => true | Ok _ => false end.

(** ** The imported packages, as far as the program touches them *)

Module jwt.

(** The signing methods golang-jwt registers; the assertion of [t.Method] to a
    pointer to [jwt.SigningMethodECDSA] succeeds on the ES256, ES384 and ES512
    methods only. *)
Inductive SigningMethod : Type :=
| SigningMethodHMAC (alg : string)
| SigningMethodRSA (alg : string)
| SigningMethodRSAPSS (alg : string)
| SigningMethodECDSA (alg : string)
| SigningMethodEd25519
| signingMethodNone.

Definition is_ECDSA (m : SigningMethod) : bool :=
  match m with SigningMethodECDSA _ => true | _ => false end.

Record Token : Type := {
  Raw : string;
  Method : SigningMethod;
  Header : MapClaims;
  Claims : MapClaims;
  Signature : string;
  Valid : bool
}.

Definition set_Valid (t : Token) (b : bool) : Token :=
  {| Raw := Raw t; Method := Method t; Header := Header t;
     Claims := Claims t; Signature := Signature t; Valid := b |}.

(** Bits of [ValidationError.Errors]. *)
Definition ValidationErrorMalformed : Z := Z.shiftl 1 0.
Definition ValidationErrorUnverifiable : Z := Z.shiftl 1 1.
Definition ValidationErrorSignatureInvalid : Z := Z.shiftl 1 2.
Definition ValidationErrorExpired : Z := Z.shiftl 1 4.
Definition ValidationErrorIssuedAt : Z := Z.shiftl 1 5.
Definition ValidationErrorNotValidYet : Z := Z.shiftl 1 7.
Definition ValidationErrorClaimsInvalid : Z := Z.shiftl 1 9.

End jwt.

Module jwk.

(** Key material handed back to [jwt.Parse]; the program never looks inside. *)
Definition PublicKey : Type := string.

(** A [jwk.Key]: its [kid] and what [key.Raw(&pubkey)] gives. *)
Record Key : Type := {
  KeyID : string;
  Raw : result PublicKey
}.

(** A [jwk.Set] keeps its keys in order. *)
Definition Set_ : Type := list Key.

(** [set.LookupKeyID(kid)]: the first key with that id. *)
Definition LookupKeyID (set : Set_) (kid : string) : option Key :=
  List.find (fun k => bool_decide (KeyID k = kid)) set.

End jwk.

Module idtoken.

Record Payload : Type := {
  Subject : string;
  Claims : MapClaims
}.

End idtoken.

Module cognito.

Record InitiateAuthInput : Type := {
  AuthFlow : string;
  ClientId : string;
  AuthParameters : gmap string string
}.

(** The three tokens are [*string]. *)
Record AuthenticationResultType : Type := {
  AccessToken : option string;
  IdToken : option string;
  RefreshToken : option string
}.

(** [AuthenticationResult] is a pointer: nil when Cognito answers with a
    challenge. *)
Record InitiateAuthOutput : Type := {
  AuthenticationResult : option AuthenticationResultType
}.

End cognito.

Module aws.
(** [aws.ToString]: the empty string for a nil pointer. *)
Definition ToString (p : option string) : string := default EmptyString p.
End aws.

(** ** The world outside the program *)

(** What the libraries and the network answer.  Verification reads the clock
    once itself ([time_Now], nanoseconds since the epoch); golang-jwt's own
    clock is inside [Claims_Valid]. *)
Record Env : Type := {
  (** [jwk.Fetch(ctx, url)]: one outbound GET. *)
  jwk_Fetch : string -> result jwk.Set_;
  (** [Parser.ParseUnverified]: split, base64- and JSON-decode the three
      segments and find the registered method for [alg]; the token and the
      signing string (the first two segments). *)
  jwt_ParseUnverified : string -> result (jwt.Token * string);
  (** [token.Claims.Valid()] for [MapClaims] (time-based registered claims). *)
  jwt_Claims_Valid : MapClaims -> option error;
  (** [token.Method.Verify(signingString, signature, key)]. *)
  jwt_Method_Verify : jwt.SigningMethod -> string -> string -> jwk.PublicKey -> option error;
  (** The conversion [int64(f)]. *)
  int64 : float64 -> Z;
  (** [time.Now()]. *)
  time_Now : Z;
  (** The [%v] format of numbers, arrays and objects. *)
  fmt_composite : value -> string;
  (** [json.Unmarshal(body, &req)] for a struct with the one field
      [id_token]. *)
  json_Unmarshal : string -> result string;
  (** [idtoken.Validate(ctx, idToken, audience)]. *)
  idtoken_Validate : string -> string -> result idtoken.Payload;
  (** [client.InitiateAuth(ctx, input)]. *)
  cognito_InitiateAuth : cognito.InitiateAuthInput -> result cognito.InitiateAuthOutput
}.

(** An int64 sum or difference wraps around. *)
Definition int64_wrap (z : Z) : Z :=
  (z + 9223372036854775808) mod 18446744073709551616 - 9223372036854775808.

(** Seconds from the year 1, where a [time.Time] counts from, to 1970. *)
Definition unixToInternal : Z := 62135596800.

(** A [time.Time] is held as the nanoseconds from the Unix epoch to the
    instant it stores.  [time.Unix(sec, nsec)] brings [nsec] into
    [0, 1e9) and stores [sec + unixToInternal] in an int64, so it wraps for
    [sec] within [unixToInternal] of the largest int64: the instant is then
    far in the past.  [t.Before(u)], for a [t] without monotonic reading,
    compares the stored seconds, then the nanoseconds. *)
Definition time_Unix (sec nsec : Z) : Z :=
  let '(sec, nsec) :=
    if Z.ltb nsec 0 || Z.leb 1000000000 nsec then
      let n := Z.quot nsec 1000000000 in
      let sec := int64_wrap (sec + n) in
      let nsec := nsec - n * 1000000000 in
      if Z.ltb nsec 0 then (int64_wrap (sec - 1), nsec + 1000000000)
      else (sec, nsec)
    else (sec, nsec) in
  (int64_wrap (sec + unixToInternal) - unixToInternal) * 1000000000 + nsec.
Definition Before (t u : Z) : bool := Z.ltb t u.

(** ** Program state *)

(** The package-level variables set by [init] and [initApple]. *)
Record Globals : Type := {
  userPoolID : string;
  clientID : string;
  googleClientID : string;
  userPoolIDApple : string;
  clientIDApple : string
}.

(** What a run does that can be seen from outside, in order. *)
Inductive Event : Type :=
| EvFetch (url : string)
| EvLookupKeyID (kid : string)
| EvIdtokenValidate (audience : string)
| EvInitiateAuth (input : cognito.InitiateAuthInput)
| EvPrintf (email : string).

Record State : Type := {
  globals : Globals;
  environ : gmap string string;
  events : list Event
}.

Definition M (A : Type) : Type := State -> A * State.

Definition ret {A} (a : A) : M A := fun s => (a, s).

Definition bind {A B} (m : M A) (k : A -> M B) : M B :=
  fun s => let '(a, s') := m s in k a s'.

Notation "'let*' x := m 'in' k" := (bind m (fun x => k))
  (at level 10, x name, m at level 100, k at level 200).

(** The state with one more event at the end of the log. *)
Definition push (e : Event) (s : State) : State :=
  {| globals := globals s; environ := environ s; events := events s ++ [e] |}.

Definition emit (e : Event) : M unit := fun s => (tt, push e s).

Definition read_global {A} (f : Globals -> A) : M A :=
  fun s => (f (globals s), s).

(** [os.Getenv]: the empty string when the variable is unset. *)
Definition os_Getenv (k : string) : M string :=
  fun s => (default EmptyString (environ s !! k), s).

(** ** HTTP

    What a handler leaves in the [http.ResponseWriter]: the status and the
    body, either the text given to [http.Error] or the object written by
    [json.NewEncoder(w).Encode], as its members in order (on the wire each
    is followed by a newline). *)

Inductive Body : Type :=
| Text (s : string)
| JSONObject (members : list (string * string)).

Record Response : Type := {
  status : Z;
  body : Body
}.

Definition StatusOK : Z := 200.
Definition StatusBadRequest : Z := 400.
Definition StatusUnauthorized : Z := 401.

(** [http.Error(w, error, code)]. *)
Definition http_Error (error : string) (code : Z) : Response :=
  {| status := code; body := Text error |}.

(** [json.NewEncoder(w).Encode(v)] with no status written before: 200. *)
Definition json_Encode (members : list (string * string)) : Response :=
  {| status := StatusOK; body := JSONObject members |}.

(** A handler returns with a response written, or panics (the server then
    drops the connection). *)
Inductive Outcome : Type :=
| Responded (r : Response)
| Panicked (reason : string).

Definition interface_conversion : string := "interface conversion".
Definition nil_dereference : string := "nil pointer dereference".

Module LoginResponse.
Record t : Type := {
  AccessToken : string;
  IDToken : string;
  RefreshToken : string
}.
(** The struct tags: three members, always written. *)
Definition members (r : t) : list (string * string) :=
  [("access_token", AccessToken r); ("id_token", IDToken r);
   ("refresh_token", RefreshToken r)].
End LoginResponse.

Module AppleLoginResponse.
Record t : Type := {
  AccessToken : string;
  IDToken : string;
  RefreshToken : string;
  Message : string
}.
(** The struct tags: every member is [omitempty]. *)
Definition members (r : t) : list (string * string) :=
  List.filter (fun kv => negb (bool_decide (snd kv = EmptyString)))
    [("access_token", AccessToken r); ("id_token", IDToken r);
     ("refresh_token", RefreshToken r); ("message", Message r)].
End AppleLoginResponse.

(** ** golang-jwt v4: [jwt.Parse]

    [Parser.ParseWithClaims] with the default parser and [MapClaims]: decode,
    ask the key function for the key (once, and only for a token that
    decoded; its error comes back as an unverifiable token), validate the
    claims, verify the signature; the token is [Valid] when nothing failed.
    The last two checks are combined as in v4.0 to v4.5.0; later v4 releases
    verify the signature first and return its failure at once.  The
    properties below use only what both orders share: which tokens are
    accepted, and what a failing key function gives. *)

Section Program.

Variable env : Env.

Definition jwt_Parse (tokenString : string)
    (keyFunc : jwt.Token -> M (result jwk.PublicKey)) : M (result jwt.Token) :=
  match jwt_ParseUnverified env tokenString with
  | Err e => ret (Err e)
  | Ok (token, signingString) =>
      let* r := keyFunc token in
      match r with
      | Err (ValidationError i f t) => ret (Err (ValidationError i f t))
      | Err e => ret (Err (ValidationError (Some e) jwt.ValidationErrorUnverifiable EmptyString))
      | Ok key =>
          let '(inner, flags, text) :=
            match jwt_Claims_Valid env (jwt.Claims token) with
            | None => (None, 0, EmptyString)
            | Some (ValidationError i f t) => (i, f, t)
            | Some e => (Some e, jwt.ValidationErrorClaimsInvalid, EmptyString)
            end in
          let '(inner, flags) :=
            match jwt_Method_Verify env (jwt.Method token) signingString
                    (jwt.Signature token) key with
            | Some e => (Some e, Z.lor flags jwt.ValidationErrorSignatureInvalid)
            | None => (inner, flags)
            end in
          if Z.eqb flags 0
          then ret (Ok (jwt.set_Valid token true))
          else ret (Err (ValidationError inner flags text))
      end
  end.

(** ** main.go *)

(** [fmt.Sprintf("%v", x)] for an [interface{}] taken from a map. *)
Definition Sprint_v (x : option value) : string :=
  match x with
  | None | Some VNil => "<nil>"
  | Some (VString s) => s
  | Some (VBool b) => if b then "true" else "false"
  | Some v => fmt_composite env v
  end.

Definition apple_keys_url : string := "https://appleid.apple.com/auth/keys".

(** fetch Apple public keys *)
Definition fetchAppleJWKSet : M (result jwk.Set_) :=
  let* _ := emit (EvFetch apple_keys_url) in
  match jwk_Fetch env apple_keys_url with
  | Err err => ret (Err (Errorf_w "failed to fetch Apple JWKs: " err))
  | Ok set => ret (Ok set)
  end.

(** The errors of the key function. *)
Definition err_unexpected_signing_method (alg : option value) : error :=
  errorString ("unexpected signing method: " +:+ Sprint_v alg).
Definition err_missing_kid : error :=
  errors_New "missing kid header in token".
Definition err_no_matching_JWK (keyID : string) : error :=
  errorString ("no matching JWK for kid: " +:+ keyID).

(** The function literal passed to [jwt.Parse]; [set] is the variable it
    captures. *)
Definition keyFunc (set : jwk.Set_) (t : jwt.Token) : M (result jwk.PublicKey) :=
  if negb (jwt.is_ECDSA (jwt.Method t))
  then ret (Err (err_unexpected_signing_method (jwt.Header t !! "alg")))
  else
    match as_string (jwt.Header t !! "kid") with
    | None => ret (Err err_missing_kid)
    | Some keyID =>
        let* _ := emit (EvLookupKeyID keyID) in
        match jwk.LookupKeyID set keyID with
        | None => ret (Err (err_no_matching_JWK keyID))
        | Some key =>
            match jwk.Raw key with
            | Err err => ret (Err err)
            | Ok pubkey => ret (Ok pubkey)
            end
        end
    end.

(** The errors of [verifyAppleIDToken]. *)
Definition err_validation_failed (err : error) : error :=
  Errorf_w "apple token validation failed: " err.
Definition err_invalid_claims : error := errors_New "invalid token claims".
Definition err_token_expired : error := errors_New "token expired".
Definition err_invalid_audience (aud : string) : error :=
  errorString ("invalid audience: " +:+ aud).

(** Lines 112-116: the expiry test, made only when [exp] is a float64. *)
Definition exp_is_past (claims : MapClaims) : bool :=
  match as_float64 (claims !! "exp") with
  | Some exp => Before (time_Unix (int64 env exp) 0) (time_Now env)
  | None => false
  end.

(** Line 117: the audience test, made only when [aud] is a string. *)
Definition aud_mismatch (claims : MapClaims) (audience : string) : option string :=
  match as_string (claims !! "aud") with
  | Some aud => if bool_decide (aud <> audience) then Some aud else None
  | None => None
  end.

(** verify Apple ID token *)
Definition verifyAppleIDToken (tokenString audience : string) : M (result MapClaims) :=
  let* r := fetchAppleJWKSet in
  match r with
  | Err err => ret (Err err)
  | Ok set =>
      let* r := jwt_Parse tokenString (keyFunc set) in
      match r with
      | Err err => ret (Err (err_validation_failed err))
      | Ok token =>
          (* token.Claims is the MapClaims jwt.Parse made: the assertion holds *)
          let claims := jwt.Claims token in
          if negb (jwt.Valid token) then ret (Err err_invalid_claims)
          else if exp_is_past claims then ret (Err err_token_expired)
          else
            match aud_mismatch claims audience with
            | Some aud => ret (Err (err_invalid_audience aud))
            | None => ret (Ok claims)
            end
      end
  end.

(** *** The handlers *)

Definition loginWithAppleHandler (body : string) : M Outcome :=
  match json_Unmarshal env body with
  | Err _ =>
      ret (Responded (http_Error
             ("{" +:+ dq +:+ "error" +:+ dq +:+ ": " +:+ dq
                  +:+ "invalid request body" +:+ dq +:+ "}")
             StatusBadRequest))
  | Ok id_token =>
      let* audience := os_Getenv "APPLE_CLIENT_ID" in
      let* r := verifyAppleIDToken id_token audience in
      match r with
      | Err err =>
          ret (Responded (http_Error
                 ("{" +:+ dq +:+ "error" +:+ dq +:+ ": " +:+ dq
                      +:+ "apple token verification failed: " +:+ Error err
                      +:+ dq +:+ "}")
                 StatusUnauthorized))
      | Ok claims =>
          let email := Sprint_v (claims !! "email") in
          let* _ := emit (EvPrintf email) in
          (* Optionally integrate with Cognito *)
          let* cid := read_global clientIDApple in
          let input :=
            {| cognito.AuthFlow := "CUSTOM_AUTH";
               cognito.ClientId := cid;
               cognito.AuthParameters := {[ "USERNAME" := email ]} |} in
          let* _ := emit (EvInitiateAuth input) in
          match cognito_InitiateAuth env input with
          | Err _ =>
              ret (Responded (json_Encode (AppleLoginResponse.members
                     {| AppleLoginResponse.AccessToken := EmptyString;
                        AppleLoginResponse.IDToken := EmptyString;
                        AppleLoginResponse.RefreshToken := EmptyString;
                        AppleLoginResponse.Message :=
                          "Apple login verified for " +:+ email
                            +:+ " (Cognito not configured)" |})))
          | Ok resp =>
              match cognito.AuthenticationResult resp with
              | None => ret (Panicked nil_dereference)
              | Some ar =>
                  ret (Responded (json_Encode (AppleLoginResponse.members
                         {| AppleLoginResponse.AccessToken :=
                              aws.ToString (cognito.AccessToken ar);
                            AppleLoginResponse.IDToken :=
                              aws.ToString (cognito.IdToken ar);
                            AppleLoginResponse.RefreshToken :=
                              aws.ToString (cognito.RefreshToken ar);
                            AppleLoginResponse.Message := EmptyString |})))
              end
          end
      end
  end.

Definition loginWithGoogleHandler (body : string) : M Outcome :=
  match json_Unmarshal env body with
  | Err _ => ret (Responded (http_Error "invalid request body" StatusBadRequest))
  | Ok id_token =>
      (* 1. Verify Google token *)
      let* audience := read_global googleClientID in
      let* _ := emit (EvIdtokenValidate audience) in
      match idtoken_Validate env id_token audience with
      | Err err =>
          ret (Responded (http_Error ("invalid google token: " +:+ Error err)
                 StatusUnauthorized))
      | Ok payload =>
          match as_string (idtoken.Claims payload !! "email") with
          | None => ret (Panicked interface_conversion)
          | Some email =>
              (* 2. Exchange token with Cognito (using OAuth2 IdP) *)
              let* cid := read_global clientID in
              let input :=
                {| cognito.AuthFlow := "USER_SRP_AUTH";
                   cognito.ClientId := cid;
                   cognito.AuthParameters :=
                     <[ "IDENTITY_PROVIDER" := "Google" ]>
                       (<[ "USERNAME" := email ]>
                          {[ "ID_TOKEN" := id_token ]}) |} in
              let* _ := emit (EvInitiateAuth input) in
              match cognito_InitiateAuth env input with
              | Err err =>
                  ret (Responded (http_Error ("cognito auth error: " +:+ Error err)
                         StatusUnauthorized))
              | Ok resp =>
                  match cognito.AuthenticationResult resp with
                  | None => ret (Panicked nil_dereference)
                  | Some ar =>
                      ret (Responded (json_Encode (LoginResponse.members
                             {| LoginResponse.AccessToken :=
                                  aws.ToString (cognito.AccessToken ar);
                                LoginResponse.IDToken :=
                                  aws.ToString (cognito.IdToken ar);
                                LoginResponse.RefreshToken :=
                                  aws.ToString (cognito.RefreshToken ar) |})))
                  end
              end
          end
      end
  end.

End Program.

Arguments jwt_Parse env tokenString keyFunc s : simpl never.

(** ** Reading the event log *)

Definition is_fetch (e : Event) : bool :=
  match e with EvFetch _ => true | _ => false end.

Definition is_lookup (e : Event) : bool :=
  match e with EvLookupKeyID _ => true | _ => false end.

(** The exchange step: the call to Cognito's [InitiateAuth]. *)
Definition is_exchange (e : Event) : bool :=
  match e with EvInitiateAuth _ => true | _ => false end.

(** What the key resolver does: fetch the set, look a key up. *)
Definition is_key_event (e : Event) : bool := is_fetch e || is_lookup e.

Definition count_fetches (l : list Event) : nat :=
  length (List.filter is_fetch l).

(** The fetches that come after the first key lookup: a refresh made because
    of a miss would be one. *)
Fixpoint fetches_after_lookup (l : list Event) : nat :=
  match l with
  | [] => 0%nat
  | EvLookupKeyID _ :: rest => count_fetches rest
  | _ :: rest => fetches_after_lookup rest
  end.

(** The events a run added to the log it started from. *)
Definition new_events (before after : State) : list Event :=
  drop (length (events before)) (events after).

(** ** The shape of an error body *)

Fixpoint has_prefix (p s : string) : bool :=
  match p, s with
  | EmptyString, _ => true
  | String a p', String b s' => bool_decide (a = b) && has_prefix p' s'
  | String _ _, EmptyString => false
  end.

Definition has_suffix (p s : string) : bool :=
  has_prefix (String.rev p) (String.rev s).

(** The text is an object with the one member [error], a string: what the
    Apple handler writes on its error paths. *)
Definition error_shaped_text (s : string) : bool :=
  (has_prefix ("{" +:+ dq +:+ "error" +:+ dq +:+ ":" +:+ dq) s
   || has_prefix ("{" +:+ dq +:+ "error" +:+ dq +:+ ": " +:+ dq) s)
  && has_suffix (dq +:+ "}") s.

Definition error_shaped (b : Body) : bool :=
  match b with
  | Text s => error_shaped_text s
  | JSONObject [(k, _)] => bool_decide (k = "error")
  | JSONObject _ => false
  end.

(** The object of a successful login: the three tokens. *)
Definition tokens_shaped (b : Body) : bool :=
  match b with
  | JSONObject [(k1, _); (k2, _); (k3, _)] =>
      bool_decide (k1 = "access_token") && bool_decide (k2 = "id_token")
      && bool_decide (k3 = "refresh_token")
  | _ => false
  end.

(** Lines 106-121, on the token [jwt.Parse] returned. *)
Definition check_claims (env : Env) (token : jwt.Token) (audience : string)
    : result MapClaims :=
  if negb (jwt.Valid token) then Err err_invalid_claims
  else if exp_is_past env (jwt.Claims token) then Err err_token_expired
  else match aud_mismatch (jwt.Claims token) audience with
       | Some aud => Err (err_invalid_audience aud)
       | None => Ok (jwt.Claims token)
       end.

(** The result of verification without the log: what [jwt.Parse] and
    [verifyAppleIDToken] return, read off the oracles. *)
Definition parse_result (env : Env) (set : jwk.Set_) (tokenString : string)
    : result jwt.Token :=
  fst (jwt_Parse env tokenString (keyFunc env set)
         {| globals := {| userPoolID := EmptyString; clientID := EmptyString; googleClientID := EmptyString;
                          userPoolIDApple := EmptyString; clientIDApple := EmptyString |};
            environ := ∅; events := [] |}).

Definition verify_result (env : Env) (tokenString audience : string)
    : result MapClaims :=
  match jwk_Fetch env apple_keys_url with
  | Err err => Err (Errorf_w "failed to fetch Apple JWKs: " err)
  | Ok set =>
      match parse_result env set tokenString with
      | Err err => Err (err_validation_failed err)
      | Ok token => check_claims env token audience
      end
  end.

(** Two worlds that give verification the same inputs: the key set served,
    the clock, and the answers of the libraries it calls. *)
Definition same_verification_inputs (env1 env2 : Env) : Prop :=
  jwk_Fetch env1 apple_keys_url = jwk_Fetch env2 apple_keys_url
  /\ time_Now env1 = time_Now env2
  /\ jwt_ParseUnverified env1 = jwt_ParseUnverified env2
  /\ jwt_Claims_Valid env1 = jwt_Claims_Valid env2
  /\ jwt_Method_Verify env1 = jwt_Method_Verify env2
  /\ int64 env1 = int64 env2
  /\ fmt_composite env1 = fmt_composite env2.

(** The body of the Apple handler's 401. *)
Definition apple_error_body (err : error) : string :=
  "{" +:+ dq +:+ "error" +:+ dq +:+ ": " +:+ dq
      +:+ "apple token verification failed: " +:+ Error err +:+ dq +:+ "}".

(** ** Expiry errors, and what golang-jwt answered *)

(** An error that reports expiry: the function's own "token expired", or
    golang-jwt's validation error with the Expired bit set, in the wrapping
    [verifyAppleIDToken] gives it. *)
Definition is_expiry_error (e : error) : Prop :=
  e = err_token_expired
  \/ exists inner flags text,
       e = err_validation_failed (ValidationError inner flags text)
       /\ Z.land flags jwt.ValidationErrorExpired <> 0.

(** [token.Claims.Valid()] returned a validation error with the Expired
    bit (golang-jwt v4 sets it for an [exp] that is not after its clock, and
    for an [exp] that is present and not a number). *)
Definition library_flags_expiry (env : Env) (claims : MapClaims) : Prop :=
  exists inner flags text,
    jwt_Claims_Valid env claims = Some (ValidationError inner flags text)
    /\ Z.land flags jwt.ValidationErrorExpired <> 0.

(** [token.Claims.Valid()] found nothing wrong (golang-jwt v4 does so for
    an [exp] that is absent or the number 0, if [iat] and [nbf] pass). *)
Definition library_accepts (env : Env) (claims : MapClaims) : Prop :=
  jwt_Claims_Valid env claims = None
  \/ exists inner text,
       jwt_Claims_Valid env claims = Some (ValidationError inner 0 text).

(** What [jwt.Parse] returns once the key function gave it [key]: the part
    of [jwt_Parse] after the key lookup. *)
Definition parse_with_key (env : Env) (token : jwt.Token) (signingString : string)
    (key : jwk.PublicKey) : result jwt.Token :=
  let '(inner, flags, text) :=
    match jwt_Claims_Valid env (jwt.Claims token) with
    | None => (None, 0, EmptyString)
    | Some (ValidationError i f t) => (i, f, t)
    | Some e => (Some e, jwt.ValidationErrorClaimsInvalid, EmptyString)
    end in
  let '(inner, flags) :=
    match jwt_Method_Verify env (jwt.Method token) signingString
            (jwt.Signature token) key with
    | Some e => (Some e, Z.lor flags jwt.ValidationErrorSignatureInvalid)
    | None => (inner, flags)
    end in
  if Z.eqb flags 0
  then Ok (jwt.set_Valid token true)
  else Err (ValidationError inner flags text).

(** ** Texts that cannot be a JSON object *)

(** The white space JSON allows between tokens. *)
Definition json_space (a : ascii) : bool :=
  bool_decide (a = " "%char) || bool_decide (a = "009"%char)
  || bool_decide (a = "010"%char) || bool_decide (a = "013"%char).

(** The text, after white space, starts with an opening brace, as every
    JSON object does. *)
Fixpoint opens_object (s : string) : bool :=
  match s with
  | EmptyString => false
  | String a s' => if json_space a then opens_object s' else bool_decide (a = "{"%char)
  end.

(** ** A concrete world, to run the program in *)

Module Demo.

(** The verification time, 2023-11-14T22:13:20Z and 5 ns. *)
Definition now_sec : Z := 1700000000.

Definition num (z : Z) : value := VNumber (inject_Z z).

Definition trunc (f : float64) : Z := Z.quot (Qnum f) (Zpos (Qden f)).

(** The key set Apple serves. *)
Definition apple_set : jwk.Set_ :=
  [ {| jwk.KeyID := "W6WcOKB"; jwk.Raw := Ok "P-256 public key W6WcOKB" |};
    {| jwk.KeyID := "fh6Bs8C"; jwk.Raw := Ok "P-256 public key fh6Bs8C" |} ].

Definition app_audience : string := "com.example.app".

Definition mk_token (raw : string) (m : jwt.SigningMethod) (alg kid : string)
    (claims : MapClaims) (sig : string) : jwt.Token :=
  {| jwt.Raw := raw; jwt.Method := m;
     jwt.Header := <[ "alg" := VString alg ]> {[ "kid" := VString kid ]};
     jwt.Claims := claims; jwt.Signature := sig; jwt.Valid := false |}.

Definition es256 : jwt.SigningMethod := jwt.SigningMethodECDSA "ES256".

Definition signed_by (key : string) : string := "signature by " +:+ key.

(** Claims of the user alice: [exp] and [aud] as given, when given. *)
Definition alice (exp : option Z) (aud : option value) : MapClaims :=
  let c : MapClaims :=
    <[ "sub" := VString "001234.alice" ]> {[ "email" := VString "alice@example.com" ]} in
  let c := match exp with Some e => <[ "exp" := num e ]> c | None => c end in
  match aud with Some a => <[ "aud" := a ]> c | None => c end.

(** The tokens of this world, by their compact form. *)
Definition tokens : list (string * jwt.Token) :=
  [ ("good",
      mk_token "good" es256 "ES256" "W6WcOKB"
        (alice (Some (now_sec + 3600)) (Some (VString app_audience)))
        (signed_by "P-256 public key W6WcOKB"));
    ("expired-rotated-kid",
      mk_token "expired-rotated-kid" es256 "ES256" "YuyXoY"
        (alice (Some (now_sec - 3600)) (Some (VString app_audience)))
        (signed_by "P-256 public key YuyXoY"));
    ("no-exp",
      mk_token "no-exp" es256 "ES256" "W6WcOKB"
        (alice None (Some (VString app_audience)))
        (signed_by "P-256 public key W6WcOKB"));
    ("no-aud",
      mk_token "no-aud" es256 "ES256" "fh6Bs8C"
        (alice (Some (now_sec + 3600)) None)
        (signed_by "P-256 public key fh6Bs8C"));
    ("other-aud",
      mk_token "other-aud" es256 "ES256" "fh6Bs8C"
        (alice (Some (now_sec + 3600)) (Some (VString "com.other.app")))
        (signed_by "P-256 public key fh6Bs8C"));
    ("exp-zero",
      mk_token "exp-zero" es256 "ES256" "W6WcOKB"
        (alice (Some 0) (Some (VString app_audience)))
        (signed_by "P-256 public key W6WcOKB"));
    ("hs256",
      mk_token "hs256" (jwt.SigningMethodHMAC "HS256") "HS256" "W6WcOKB"
        (alice (Some (now_sec + 3600)) (Some (VString app_audience)))
        "hmac with the public key as secret") ].

Definition lookup_token (raw : string) : option jwt.Token :=
  snd <$> List.find (fun kv => bool_decide (fst kv = raw)) tokens.

Definition ParseUnverified (raw : string) : result (jwt.Token * string) :=
  match lookup_token raw with
  | Some t => Ok (t, raw)
  | None =>
      Err (ValidationError
             (Some (errorString "token contains an invalid number of segments"))
             jwt.ValidationErrorMalformed EmptyString)
  end.

(** golang-jwt v4, [MapClaims.Valid]: [exp], [iat] and [nbf] are checked when
    present (a number equal to 0 counts as absent), against the clock in
    seconds. *)
Definition time_claim_ok (claims : MapClaims) (k : string) (ok : Z -> bool) : bool :=
  match claims !! k with
  | None => true
  | Some (VNumber f) => if Qeq_bool f (inject_Z 0) then true else ok (trunc f)
  | Some _ => false
  end.

Definition Claims_Valid (claims : MapClaims) : option error :=
  let v0 : option error * Z := (None, 0) in
  let v1 :=
    if time_claim_ok claims "exp" (fun e => Z.ltb now_sec e) then v0
    else (Some (errorString "Token is expired"),
          Z.lor (snd v0) jwt.ValidationErrorExpired) in
  let v2 :=
    if time_claim_ok claims "iat" (fun i => Z.leb i now_sec) then v1
    else (Some (errorString "Token used before issued"),
          Z.lor (snd v1) jwt.ValidationErrorIssuedAt) in
  let v3 :=
    if time_claim_ok claims "nbf" (fun n => Z.leb n now_sec) then v2
    else (Some (errorString "Token is not valid yet"),
          Z.lor (snd v2) jwt.ValidationErrorNotValidYet) in
  if Z.eqb (snd v3) 0 then None else Some (ValidationError (fst v3) (snd v3) EmptyString).

Definition Method_Verify (m : jwt.SigningMethod) (signingString sig : string)
    (key : jwk.PublicKey) : option error :=
  if jwt.is_ECDSA m && bool_decide (sig = signed_by key) then None
  else Some (errorString "crypto/ecdsa: verification error").

(** The request bodies of this world. *)
Definition request (id_token : string) : string :=
  "{" +:+ dq +:+ "id_token" +:+ dq +:+ ": " +:+ dq +:+ id_token +:+ dq +:+ "}".

Definition Unmarshal (body : string) : result string :=
  let pre := "{" +:+ dq +:+ "id_token" +:+ dq +:+ ": " +:+ dq in
  let post := dq +:+ "}" in
  if has_prefix pre body && has_suffix post body
  then Ok (String.substring (String.length pre)
             (String.length body - String.length pre - String.length post) body)
  else if bool_decide (body = "{}") then Ok EmptyString
  else Err (errorString "invalid character looking for beginning of value").

Definition google_audience : string := "1234.apps.googleusercontent.com".

Definition Validate (idToken audience : string) : result idtoken.Payload :=
  if negb (bool_decide (audience = google_audience))
  then Err (errorString "idtoken: audience provided does not match aud claim in the JWT")
  else if bool_decide (idToken = "google-bob")
  then Ok {| idtoken.Subject := "1122";
             idtoken.Claims := {[ "email" := VString "bob@example.com" ]} |}
  else if bool_decide (idToken = "google-no-email")
  then Ok {| idtoken.Subject := "3344"; idtoken.Claims := ∅ |}
  else Err (errorString "idtoken: invalid token, token must have three segments").

(** Cognito here has no custom-auth flow set up, and answers the other flows
    with tokens. *)
Definition InitiateAuth (input : cognito.InitiateAuthInput)
    : result cognito.InitiateAuthOutput :=
  if bool_decide (cognito.AuthFlow input = "CUSTOM_AUTH")
  then Err (errorString "InvalidParameterException: Custom auth lambda trigger is not configured for the user pool.")
  else Ok {| cognito.AuthenticationResult :=
               Some {| cognito.AccessToken := Some "cognito-access";
                       cognito.IdToken := Some "cognito-id";
                       cognito.RefreshToken := Some "cognito-refresh" |} |}.

Definition world (fetch : string -> result jwk.Set_)
    (initiate : cognito.InitiateAuthInput -> result cognito.InitiateAuthOutput) : Env :=
  {| jwk_Fetch := fetch;
     jwt_ParseUnverified := ParseUnverified;
     jwt_Claims_Valid := Claims_Valid;
     jwt_Method_Verify := Method_Verify;
     int64 := trunc;
     time_Now := time_Unix now_sec 5;
     fmt_composite := fun _ => "(composite)";
     json_Unmarshal := Unmarshal;
     idtoken_Validate := Validate;
     cognito_InitiateAuth := initiate |}.

(** Apple's endpoint answers. *)
Definition env : Env := world (fun _ => Ok apple_set) InitiateAuth.

(** Apple's endpoint is unreachable. *)
Definition env_down : Env :=
  world (fun _ => Err (errorString "failed to fetch: connection refused")) InitiateAuth.

(** Cognito is unreachable for every flow. *)
Definition env_no_cognito : Env :=
  world (fun _ => Ok apple_set)
    (fun _ => Err (errorString "operation error: request send failed")).

Definition s0 : State :=
  {| globals := {| userPoolID := "eu-west-1_pool"; clientID := "cognito-client";
                   googleClientID := google_audience;
                   userPoolIDApple := "eu-west-1_pool";
                   clientIDApple := "cognito-client" |};
     environ := {[ "APPLE_CLIENT_ID" := app_audience ]};
     events := [] |}.

(** A process that has already served requests. *)
Definition s1 : State :=
  {| globals := globals s0; environ := environ s0;
     events := [EvFetch apple_keys_url; EvLookupKeyID "W6WcOKB"] |}.

End Demo.

(** ** Start-up and routing *)

(** [init] and [initApple] write the package-level variables one by one. *)
Definition set_userPoolID (v : string) (g : Globals) : Globals :=
  {| userPoolID := v; clientID := clientID g; googleClientID := googleClientID g;
     userPoolIDApple := userPoolIDApple g; clientIDApple := clientIDApple g |}.
Definition set_clientID (v : string) (g : Globals) : Globals :=
  {| userPoolID := userPoolID g; clientID := v; googleClientID := googleClientID g;
     userPoolIDApple := userPoolIDApple g; clientIDApple := clientIDApple g |}.
Definition set_googleClientID (v : string) (g : Globals) : Globals :=
  {| userPoolID := userPoolID g; clientID := clientID g; googleClientID := v;
     userPoolIDApple := userPoolIDApple g; clientIDApple := clientIDApple g |}.
Definition set_userPoolIDApple (v : string) (g : Globals) : Globals :=
  {| userPoolID := userPoolID g; clientID := clientID g;
     googleClientID := googleClientID g;
     userPoolIDApple := v; clientIDApple := clientIDApple g |}.
Definition set_clientIDApple (v : string) (g : Globals) : Globals :=
  {| userPoolID := userPoolID g; clientID := clientID g;
     googleClientID := googleClientID g;
     userPoolIDApple := userPoolIDApple g; clientIDApple := v |}.

Definition write_global (f : Globals -> Globals) : M unit :=
  fun s => (tt, {| globals := f (globals s); environ := environ s;
                   events := events s |}).

(** The package-level variables before [init] runs: Go's zero values. *)
Definition zero_globals : Globals :=
  {| userPoolID := EmptyString; clientID := EmptyString;
     googleClientID := EmptyString; userPoolIDApple := EmptyString;
     clientIDApple := EmptyString |}.

(** Start-up ends with the variables set, or in [panic(err)]. *)
Inductive InitOutcome : Type :=
| Initialised
| InitPanicked (err : error).

(** [initApple]; [cfg] is what its call of [config.LoadDefaultConfig]
    returns (the Cognito client built from it is the oracle
    [cognito_InitiateAuth]). *)
Definition initApple (cfg : result unit) : M InitOutcome :=
  match cfg with
  | Err err => ret (InitPanicked err)
  | Ok _ =>
      let* pool := os_Getenv "COGNITO_USER_POOL_ID" in
      let* _ := write_global (set_userPoolIDApple pool) in
      let* cid := os_Getenv "COGNITO_APP_CLIENT_ID" in
      let* _ := write_global (set_clientIDApple cid) in
      ret Initialised
  end.

(** [init]; [cfg] and [cfgApple] are what the two calls of
    [config.LoadDefaultConfig] return. *)
Definition init (cfg cfgApple : result unit) : M InitOutcome :=
  match cfg with
  | Err err => ret (InitPanicked err)
  | Ok _ =>
      let* pool := os_Getenv "COGNITO_USER_POOL_ID" in
      let* _ := write_global (set_userPoolID pool) in
      let* cid := os_Getenv "COGNITO_APP_CLIENT_ID" in
      let* _ := write_global (set_clientID cid) in
      let* gid := os_Getenv "GOOGLE_CLIENT_ID" in
      let* _ := write_global (set_googleClientID gid) in
      initApple cfgApple
  end.

(** [main]: the patterns registered on the mux, in order.  Neither ends in
    a slash nor names a method: a request whose path is a pattern is served
    by its handler, whatever its method. *)
Definition routes : list (string * (Env -> string -> M Outcome)) :=
  [ ("/auth/loginWithGoogle", loginWithGoogleHandler);
    ("/auth/loginWithApple", loginWithAppleHandler) ].

(** The handler registered for exactly this path, if any (the mux answers
    the other paths itself). *)
Definition mux_handler (path : string) : option (Env -> string -> M Outcome) :=
  snd <$> List.find (fun r => bool_decide (fst r = path)) routes.

(** ** Framing the log *)

(** The state with a longer history in front of its log. *)
Definition prepend (history : list Event) (s : State) : State :=
  {| globals := globals s; environ := environ s;
     events := history ++ events s |}.

(** A computation that reads nothing of the log, only adds to its end, and
    leaves the globals and the environment as they are. *)
Definition framed {A} (m : M A) : Prop :=
  forall history s,
    m (prepend history s) = (fst (m s), prepend history (snd (m s)))
    /\ globals (snd (m s)) = globals s
    /\ environ (snd (m s)) = environ s.

(** The state with an empty log. *)
Definition fresh (s : State) : State :=
  {| globals := globals s; environ := environ s; events := [] |}.

(** ** More worlds *)

Module Cases.

(** A key set with a key that cannot be turned into a public key. *)
Definition key_set : jwk.Set_ :=
  Demo.apple_set
    ++ [ {| jwk.KeyID := "Sf2lFqw";
            jwk.Raw := Err (errorString "jwk: unsupported key type") |} ].

(** Claims with neither [email] nor [exp]. *)
Definition anonymous : MapClaims :=
  <[ "sub" := VString "005678.anon" ]> {[ "aud" := VString Demo.app_audience ]}.

Definition tokens : list (string * jwt.Token) :=
  [ ("no-kid",
      {| jwt.Raw := "no-kid"; jwt.Method := Demo.es256;
         jwt.Header := {[ "alg" := VString "ES256" ]};
         jwt.Claims := Demo.alice (Some (Demo.now_sec + 3600))
                         (Some (VString Demo.app_audience));
         jwt.Signature := Demo.signed_by "P-256 public key W6WcOKB";
         jwt.Valid := false |});
    ("broken-key",
      Demo.mk_token "broken-key" Demo.es256 "ES256" "Sf2lFqw"
        (Demo.alice (Some (Demo.now_sec + 3600)) (Some (VString Demo.app_audience)))
        (Demo.signed_by "P-256 public key Sf2lFqw"));
    ("no-email",
      Demo.mk_token "no-email" Demo.es256 "ES256" "W6WcOKB" anonymous
        (Demo.signed_by "P-256 public key W6WcOKB"));
    ("good",
      Demo.mk_token "good" Demo.es256 "ES256" "W6WcOKB"
        (Demo.alice (Some (Demo.now_sec + 3600)) (Some (VString Demo.app_audience)))
        (Demo.signed_by "P-256 public key W6WcOKB"));
    ("expires-now",
      Demo.mk_token "expires-now" Demo.es256 "ES256" "W6WcOKB"
        (Demo.alice (Some Demo.now_sec) (Some (VString Demo.app_audience)))
        (Demo.signed_by "P-256 public key W6WcOKB"));
    ("expired",
      Demo.mk_token "expired" Demo.es256 "ES256" "W6WcOKB"
        (Demo.alice (Some (Demo.now_sec - 3600)) (Some (VString Demo.app_audience)))
        (Demo.signed_by "P-256 public key W6WcOKB"));
    ("text-exp",
      Demo.mk_token "text-exp" Demo.es256 "ES256" "W6WcOKB"
        (<[ "exp" := VString "tomorrow" ]>
           (Demo.alice None (Some (VString Demo.app_audience))))
        (Demo.signed_by "P-256 public key W6WcOKB")) ].

Definition ParseUnverified (raw : string) : result (jwt.Token * string) :=
  match snd <$> List.find (fun kv => bool_decide (fst kv = raw)) tokens with
  | Some t => Ok (t, raw)
  | None =>
      Err (ValidationError
             (Some (errorString "token contains an invalid number of segments"))
             jwt.ValidationErrorMalformed EmptyString)
  end.

Definition world
    (initiate : cognito.InitiateAuthInput -> result cognito.InitiateAuthOutput) : Env :=
  {| jwk_Fetch := fun _ => Ok key_set;
     jwt_ParseUnverified := ParseUnverified;
     jwt_Claims_Valid := Demo.Claims_Valid;
     jwt_Method_Verify := Demo.Method_Verify;
     int64 := Demo.trunc;
     time_Now := time_Unix Demo.now_sec 5;
     fmt_composite := fun _ => "(composite)";
     json_Unmarshal := Demo.Unmarshal;
     idtoken_Validate := Demo.Validate;
     cognito_InitiateAuth := initiate |}.

(** Cognito fails every call. *)
Definition env : Env :=
  world (fun _ => Err (errorString "operation error: request send failed")).

(** Cognito answers every flow with a challenge: no error, no tokens. *)
Definition env_challenge : Env :=
  world (fun _ => Ok {| cognito.AuthenticationResult := None |}).

(** Cognito answers with an access token only. *)
Definition env_access_only : Env :=
  world (fun _ => Ok {| cognito.AuthenticationResult :=
                          Some {| cognito.AccessToken := Some "cognito-access";
                                  cognito.IdToken := None;
                                  cognito.RefreshToken := Some EmptyString |} |}).

(** A process just started; the client id is under the name the README
    gives, [GOOGLE_CLIENT_ID] is not set. *)
Definition boot : State :=
  {| globals := zero_globals;
     environ := <[ "COGNITO_CLIENT_ID" := "readme-client" ]>
                  (<[ "APPLE_CLIENT_ID" := Demo.app_audience ]>
                     {[ "COGNITO_USER_POOL_ID" := "eu-west-1_pool" ]});
     events := [] |}.

(** A process just started with every variable the program reads. *)
Definition boot_configured : State :=
  {| globals := zero_globals;
     environ := <[ "COGNITO_APP_CLIENT_ID" := "cognito-client" ]>
                  (<[ "GOOGLE_CLIENT_ID" := Demo.google_audience ]>
                     (<[ "APPLE_CLIENT_ID" := Demo.app_audience ]>
                        {[ "COGNITO_USER_POOL_ID" := "eu-west-1_pool" ]}));
     events := [] |}.

End Cases.

(** * Properties *)

(** ** Running the monad *)

Ltac run :=
  unfold bind, ret, emit, read_global, os_Getenv in *; simpl in *.

Ltac break_match :=
  match goal with
  | |- context [match ?x with _ => _ end] =>
      let E := fresh "E" in destruct x eqn:E; simpl in *
  end.

Ltac break_hyp :=
  match goal with
  | H : context [match ?x with _ => _ end] |- _ =>
      let E := fresh "E" in destruct x eqn:E; simpl in *
  end.

Lemma new_events_app (s s' : State) (l : list Event) :
  events s' = events s ++ l -> new_events s s' = l.
Proof.
  intros H. unfold new_events. rewrite H. by rewrite drop_app_length.
Qed.

Lemma new_events_push (s : State) (e : Event) : new_events s (push e s) = [e].
Proof. by apply new_events_app. Qed.

(** ** The key-set fetch *)

Lemma fetchAppleJWKSet_run (env : Env) (s : State) :
  fetchAppleJWKSet env s =
    (match jwk_Fetch env apple_keys_url with
     | Err err => Err (Errorf_w "failed to fetch Apple JWKs: " err)
     | Ok set => Ok set
     end, push (EvFetch apple_keys_url) s).
Proof. unfold fetchAppleJWKSet. run. by destruct (jwk_Fetch env _). Qed.

(** ** The key function *)

Lemma keyFunc_not_ECDSA (env : Env) (set : jwk.Set_) (t : jwt.Token) (s : State) :
  jwt.is_ECDSA (jwt.Method t) = false ->
  keyFunc env set t s =
    (Err (err_unexpected_signing_method env (jwt.Header t !! "alg")), s).
Proof. intros H. unfold keyFunc. by rewrite H. Qed.

Lemma keyFunc_lookup (env : Env) (set : jwk.Set_) (t : jwt.Token) (s : State)
    (keyID : string) :
  jwt.is_ECDSA (jwt.Method t) = true ->
  jwt.Header t !! "kid" = Some (VString keyID) ->
  keyFunc env set t s =
    (match jwk.LookupKeyID set keyID with
     | None => Err (err_no_matching_JWK keyID)
     | Some key => jwk.Raw key
     end, push (EvLookupKeyID keyID) s).
Proof.
  intros Hm Hk. unfold keyFunc. rewrite Hm, Hk. run.
  destruct (jwk.LookupKeyID set keyID) as [key|]; [|done].
  by destruct (jwk.Raw key).
Qed.

(** The key function leaves the state alone but for at most one lookup in
    the log. *)
Lemma keyFunc_events (env : Env) (set : jwk.Set_) (t : jwt.Token) (s : State) :
  snd (keyFunc env set t s) = s \/
  exists keyID, snd (keyFunc env set t s) = push (EvLookupKeyID keyID) s.
Proof.
  unfold keyFunc. run. repeat break_match; eauto.
Qed.

(** ** [jwt.Parse] *)

Lemma jwt_Parse_undecodable (env : Env) (tokenString : string)
    (kf : jwt.Token -> M (result jwk.PublicKey)) (s : State) (e : error) :
  jwt_ParseUnverified env tokenString = Err e ->
  jwt_Parse env tokenString kf s = (Err e, s).
Proof. intros H. unfold jwt_Parse. by rewrite H. Qed.

(** An error of the key function that is an [errorString] comes back as an
    unverifiable token. *)
Lemma jwt_Parse_keyFunc_errorString (env : Env) (tokenString : string)
    (kf : jwt.Token -> M (result jwk.PublicKey)) (s s' : State)
    (tok : jwt.Token) (ss msg : string) :
  jwt_ParseUnverified env tokenString = Ok (tok, ss) ->
  kf tok s = (Err (errorString msg), s') ->
  jwt_Parse env tokenString kf s =
    (Err (ValidationError (Some (errorString msg)) jwt.ValidationErrorUnverifiable EmptyString), s').
Proof. intros H K. unfold jwt_Parse. rewrite H. run. by rewrite K. Qed.

(** A token that [jwt.Parse] returns without error decoded, got a key from
    the key function, passed the signature check, and is marked valid. *)
Lemma jwt_Parse_Ok_inv (env : Env) (tokenString : string)
    (kf : jwt.Token -> M (result jwk.PublicKey)) (s s' : State)
    (token : jwt.Token) :
  jwt_Parse env tokenString kf s = (Ok token, s') ->
  exists tok ss key,
    jwt_ParseUnverified env tokenString = Ok (tok, ss)
    /\ kf tok s = (Ok key, s')
    /\ token = jwt.set_Valid tok true
    /\ jwt_Method_Verify env (jwt.Method tok) ss (jwt.Signature tok) key = None.
Proof.
  unfold jwt_Parse. intros H.
  destruct (jwt_ParseUnverified env tokenString) as [[tok ss]|e] eqn:EP;
    [|by inversion H].
  run. destruct (kf tok s) as [[key|e] s1] eqn:EK; [|by destruct e].
  exists tok, ss, key.
  destruct (jwt_Method_Verify env _ ss _ key) as [ve|] eqn:EV.
  - exfalso.
    destruct (jwt_Claims_Valid env (jwt.Claims tok)) as [[]|]; simpl in H;
      try discriminate.
    match type of H with
    | context [Z.eqb ?f 0] => destruct (Z.eqb f 0) eqn:EZ
    end; try discriminate.
    apply Z.eqb_eq, Z.lor_eq_0_iff in EZ. destruct EZ; discriminate.
  - destruct (jwt_Claims_Valid env (jwt.Claims tok)) as [[]|]; simpl in H;
      try discriminate; try (inversion H; subst; by auto).
    destruct (Z.eqb Errors 0); inversion H; subst; by auto.
Qed.

(** [jwt.Parse] touches the state only through the key function, which it
    calls at most once. *)
Lemma jwt_Parse_state (env : Env) (tokenString : string)
    (kf : jwt.Token -> M (result jwk.PublicKey)) (s : State) :
  snd (jwt_Parse env tokenString kf s) = s
  \/ exists tok, snd (jwt_Parse env tokenString kf s) = snd (kf tok s).
Proof.
  unfold jwt_Parse.
  destruct (jwt_ParseUnverified env tokenString) as [[tok ss]|e]; [|by left].
  right. exists tok. run. destruct (kf tok s) as [[key|e] s1]; simpl.
  - repeat break_match; done.
  - by destruct e.
Qed.

(** ** Verification, step by step *)

Lemma verifyAppleIDToken_run (env : Env) (tokenString audience : string) (s : State) :
  verifyAppleIDToken env tokenString audience s =
    match jwk_Fetch env apple_keys_url with
    | Err err =>
        (Err (Errorf_w "failed to fetch Apple JWKs: " err),
         push (EvFetch apple_keys_url) s)
    | Ok set =>
        match jwt_Parse env tokenString (keyFunc env set)
                (push (EvFetch apple_keys_url) s) with
        | (Err err, s1) => (Err (err_validation_failed err), s1)
        | (Ok token, s1) => (check_claims env token audience, s1)
        end
    end.
Proof.
  unfold verifyAppleIDToken, bind. rewrite fetchAppleJWKSet_run.
  destruct (jwk_Fetch env apple_keys_url) as [set|e]; [|done].
  destruct (jwt_Parse env tokenString (keyFunc env set) _) as [[token|e] s1];
    [|done].
  unfold check_claims, ret. by repeat break_match.
Qed.

(** ** What verification does to the state *)

Lemma verifyAppleIDToken_state (env : Env) (tokenString audience : string) (s : State) :
  let s' := snd (verifyAppleIDToken env tokenString audience s) in
  globals s' = globals s /\ environ s' = environ s
  /\ (events s' = events s ++ [EvFetch apple_keys_url]
      \/ exists keyID,
           events s' = events s ++ [EvFetch apple_keys_url; EvLookupKeyID keyID]).
Proof.
  cbv zeta. rewrite verifyAppleIDToken_run.
  destruct (jwk_Fetch env apple_keys_url) as [set|e]; simpl;
    [|by repeat split; auto].
  pose proof (jwt_Parse_state env tokenString (keyFunc env set)
                (push (EvFetch apple_keys_url) s)) as HP.
  destruct (jwt_Parse env tokenString (keyFunc env set) _) as [r s1] eqn:EP.
  simpl in HP.
  assert (globals s1 = globals s /\ environ s1 = environ s
          /\ (events s1 = events s ++ [EvFetch apple_keys_url]
              \/ exists keyID,
                   events s1 = events s ++ [EvFetch apple_keys_url; EvLookupKeyID keyID]))
    as Hs1.
  { destruct HP as [->|[tok ->]]; [by repeat split; auto|].
    destruct (keyFunc_events env set tok (push (EvFetch apple_keys_url) s))
      as [->|[keyID ->]]; simpl; [by repeat split; auto|].
    split; [done|]. split; [done|]. right. exists keyID.
    by rewrite <- app_assoc. }
  by destruct r.
Qed.

(** ** The result does not depend on the state *)

Lemma keyFunc_fst (env : Env) (set : jwk.Set_) (t : jwt.Token) (s s' : State) :
  fst (keyFunc env set t s) = fst (keyFunc env set t s').
Proof. unfold keyFunc. run. by repeat break_match. Qed.

Lemma jwt_Parse_fst (env : Env) (tokenString : string)
    (kf : jwt.Token -> M (result jwk.PublicKey)) (s s' : State) :
  (forall tok, fst (kf tok s) = fst (kf tok s')) ->
  fst (jwt_Parse env tokenString kf s) = fst (jwt_Parse env tokenString kf s').
Proof.
  intros H. unfold jwt_Parse.
  destruct (jwt_ParseUnverified env tokenString) as [[tok ss]|e]; [|done].
  run. specialize (H tok).
  destruct (kf tok s) as [r1 t1], (kf tok s') as [r2 t2]. simpl in H. subst r2.
  destruct r1 as [key|e]; [|by destruct e].
  by repeat break_match.
Qed.

Lemma verifyAppleIDToken_pure (env : Env) (tokenString audience : string) (s : State) :
  fst (verifyAppleIDToken env tokenString audience s)
    = verify_result env tokenString audience.
Proof.
  rewrite verifyAppleIDToken_run. unfold verify_result, parse_result.
  destruct (jwk_Fetch env apple_keys_url) as [set|e]; [|done].
  match goal with
  | |- context [parse_result] => idtac
  | |- fst match jwt_Parse env tokenString ?kf ?a with _ => _ end
       = match fst (jwt_Parse env tokenString ?kf ?b) with _ => _ end =>
      rewrite <- (jwt_Parse_fst env tokenString kf a b)
        by (intros tok; apply keyFunc_fst);
      by destruct (jwt_Parse env tokenString kf a) as [[token|e] s1]
  end.
Qed.

(** ** The handlers, step by step *)

Lemma loginWithAppleHandler_unverified (env : Env) (body id_token : string)
    (s s1 : State) (err : error) :
  json_Unmarshal env body = Ok id_token ->
  verifyAppleIDToken env id_token (default EmptyString (environ s !! "APPLE_CLIENT_ID")) s
    = (Err err, s1) ->
  loginWithAppleHandler env body s =
    (Responded (http_Error (apple_error_body err) StatusUnauthorized), s1).
Proof.
  intros HU HV. unfold loginWithAppleHandler. rewrite HU. run. by rewrite HV.
Qed.

Lemma loginWithAppleHandler_verified (env : Env) (body id_token : string)
    (s s1 : State) (claims : MapClaims) :
  json_Unmarshal env body = Ok id_token ->
  verifyAppleIDToken env id_token (default EmptyString (environ s !! "APPLE_CLIENT_ID")) s
    = (Ok claims, s1) ->
  let email := Sprint_v env (claims !! "email") in
  let input :=
    {| cognito.AuthFlow := "CUSTOM_AUTH";
       cognito.ClientId := clientIDApple (globals s1);
       cognito.AuthParameters := {[ "USERNAME" := email ]} |} in
  loginWithAppleHandler env body s =
    (match cognito_InitiateAuth env input with
     | Err _ =>
         Responded (json_Encode
           [("message", "Apple login verified for " +:+ email
                          +:+ " (Cognito not configured)")])
     | Ok resp =>
         match cognito.AuthenticationResult resp with
         | None => Panicked nil_dereference
         | Some ar =>
             Responded (json_Encode (AppleLoginResponse.members
               {| AppleLoginResponse.AccessToken := aws.ToString (cognito.AccessToken ar);
                  AppleLoginResponse.IDToken := aws.ToString (cognito.IdToken ar);
                  AppleLoginResponse.RefreshToken := aws.ToString (cognito.RefreshToken ar);
                  AppleLoginResponse.Message := EmptyString |}))
         end
     end, push (EvInitiateAuth input) (push (EvPrintf email) s1)).
Proof.
  intros HU HV. cbv zeta. unfold loginWithAppleHandler. rewrite HU. run.
  rewrite HV. simpl.
  destruct (cognito_InitiateAuth env _) as [resp|e]; [|done].
  by destruct (cognito.AuthenticationResult resp).
Qed.

Lemma loginWithGoogleHandler_unverified (env : Env) (body id_token : string)
    (s : State) (err : error) :
  json_Unmarshal env body = Ok id_token ->
  idtoken_Validate env id_token (googleClientID (globals s)) = Err err ->
  loginWithGoogleHandler env body s =
    (Responded (http_Error ("invalid google token: " +:+ Error err) StatusUnauthorized),
     push (EvIdtokenValidate (googleClientID (globals s))) s).
Proof.
  intros HU HV. unfold loginWithGoogleHandler. rewrite HU. run. by rewrite HV.
Qed.

(** ** The clock *)

(** In range [time.Unix(sec, 0)] is [sec] seconds after the epoch; a second
    count within [unixToInternal] of the largest int64 wraps to an instant
    far in the past. *)
Lemma time_Unix_in_range (sec : Z) :
  - 9223372036854775808 - unixToInternal <= sec
    < 9223372036854775808 - unixToInternal ->
  time_Unix sec 0 = sec * 1000000000.
Proof.
  intros H. unfold time_Unix, int64_wrap, unixToInternal in *. simpl.
  rewrite Z.mod_small by lia. lia.
Qed.

Example time_Unix_wraps :
  Before (time_Unix 9223372036854774784 0) (time_Unix 1700000000 5) = true.
Proof. vm_compute. reflexivity. Qed.

(** ** [jwt.Parse] once the key is known *)

Lemma jwt_Parse_with_key (env : Env) (tokenString : string)
    (kf : jwt.Token -> M (result jwk.PublicKey)) (s s1 : State)
    (tok : jwt.Token) (ss : string) (key : jwk.PublicKey) :
  jwt_ParseUnverified env tokenString = Ok (tok, ss) ->
  kf tok s = (Ok key, s1) ->
  jwt_Parse env tokenString kf s = (parse_with_key env tok ss key, s1).
Proof.
  intros HP HK. unfold jwt_Parse, parse_with_key. rewrite HP. unfold bind.
  rewrite HK.
  destruct (jwt_Claims_Valid env (jwt.Claims tok)) as [[]|];
    destruct (jwt_Method_Verify env _ ss _ key); simpl;
    by repeat break_match.
Qed.

(** Verification of a token that decoded and whose key was found. *)
Lemma verifyAppleIDToken_with_key (env : Env) (tokenString audience : string)
    (s s1 : State) (set : jwk.Set_) (tok : jwt.Token) (ss : string)
    (key : jwk.PublicKey) :
  jwk_Fetch env apple_keys_url = Ok set ->
  jwt_ParseUnverified env tokenString = Ok (tok, ss) ->
  keyFunc env set tok (push (EvFetch apple_keys_url) s) = (Ok key, s1) ->
  verifyAppleIDToken env tokenString audience s =
    (match parse_with_key env tok ss key with
     | Err err => Err (err_validation_failed err)
     | Ok token => check_claims env token audience
     end, s1).
Proof.
  intros HF HP HK.
  rewrite verifyAppleIDToken_run, HF.
  rewrite (jwt_Parse_with_key env tokenString (keyFunc env set) _ s1 tok ss key HP HK).
  by destruct (parse_with_key env tok ss key).
Qed.

(** ** Recognising an expiry error *)

Lemma land_lor_same_nonzero (f b : Z) : b <> 0 -> Z.land (Z.lor f b) b <> 0.
Proof.
  intros Hb H. rewrite Z.land_lor_distr_l, Z.land_diag in H.
  apply Z.lor_eq_0_iff in H as [_ H]. contradiction.
Qed.

Lemma is_expiry_error_validation (inner : option error) (flags : Z) (text : string) :
  is_expiry_error (err_validation_failed (ValidationError inner flags text))
  <-> Z.land flags jwt.ValidationErrorExpired <> 0.
Proof.
  split.
  - intros [H|(i & f & t & H & Hf)]; [discriminate|].
    unfold err_validation_failed, Errorf_w in H. by inversion H; subst.
  - intros H. right. by exists inner, flags, text.
Qed.

Lemma not_expiry_invalid_audience (aud : string) :
  ~ is_expiry_error (err_invalid_audience aud).
Proof.
  intros [H|(i & f & t & H & _)]; [|discriminate].
  unfold err_invalid_audience, err_token_expired, errors_New in H. simpl in H.
  discriminate.
Qed.

Lemma not_expiry_fetch_failed (e : error) :
  ~ is_expiry_error (Errorf_w "failed to fetch Apple JWKs: " e).
Proof.
  intros [H|(i & f & t & H & _)]; [discriminate|].
  unfold err_validation_failed, Errorf_w in H. simpl in H. discriminate.
Qed.

(** * The claims *)

(** ** C1: expired tokens *)

(** C1, as stated, fails: a token whose [exp] lies an hour in the past and
    whose [kid] is not in the fetched key set is rejected by the key lookup;
    the error is "no matching JWK", not "token expired". *)
Lemma C1_expired_unknown_kid_is_not_TokenExpired :
  exists tok ss,
    jwt_ParseUnverified Demo.env "expired-rotated-kid" = Ok (tok, ss)
    /\ exp_is_past Demo.env (jwt.Claims tok) = true
    /\ fst (verifyAppleIDToken Demo.env "expired-rotated-kid" Demo.app_audience Demo.s0)
         = Err (err_validation_failed
                  (ValidationError (Some (err_no_matching_JWK "YuyXoY"))
                     jwt.ValidationErrorUnverifiable EmptyString))
    /\ fst (verifyAppleIDToken Demo.env "expired-rotated-kid" Demo.app_audience Demo.s0)
         <> Err err_token_expired.
Proof.
  eexists _, _. split; [vm_compute; reflexivity|].
  split; [vm_compute; reflexivity|].
  split; [vm_compute; reflexivity|].
  vm_compute. discriminate.
Qed.

(** C1, amended: a token whose [exp] claim is a number in the past never
    verifies, whatever its signature and whatever the key set: verification
    returns an error.  When the key set was fetched, the key function gave a
    key and the signature verifies, the error is the one of the expiry
    checks: golang-jwt's validation error as it is, an expiry error exactly
    when it carries the Expired bit, wrapped in "apple token validation
    failed"; or, when the library accepted the claims, the function's own
    "token expired".  When the signature does not verify the error carries
    the signature error and the SignatureInvalid bit.  When an earlier step
    fails the error is that step's and is not an expiry error: the wrapped
    fetch error, or the key function's error (wrong method, missing [kid],
    no matching key) as an unverifiable token. *)
Theorem C1_expired_token_never_verifies (env : Env) (tokenString audience : string)
    (s : State) (tok : jwt.Token) (ss : string) :
  jwt_ParseUnverified env tokenString = Ok (tok, ss) ->
  exp_is_past env (jwt.Claims tok) = true ->
  is_Err (fst (verifyAppleIDToken env tokenString audience s)) = true
  /\ (forall set token s1,
        jwk_Fetch env apple_keys_url = Ok set ->
        jwt_Parse env tokenString (keyFunc env set) (push (EvFetch apple_keys_url) s)
          = (Ok token, s1) ->
        verifyAppleIDToken env tokenString audience s = (Err err_token_expired, s1))
  /\ (forall set pub s1,
        jwk_Fetch env apple_keys_url = Ok set ->
        keyFunc env set tok (push (EvFetch apple_keys_url) s) = (Ok pub, s1) ->
        (jwt_Method_Verify env (jwt.Method tok) ss (jwt.Signature tok) pub = None ->
         (library_accepts env (jwt.Claims tok) ->
          verifyAppleIDToken env tokenString audience s = (Err err_token_expired, s1))
         /\ (forall inner flags text,
               jwt_Claims_Valid env (jwt.Claims tok)
                 = Some (ValidationError inner flags text) ->
               flags <> 0 ->
               verifyAppleIDToken env tokenString audience s
                 = (Err (err_validation_failed (ValidationError inner flags text)), s1)
               /\ (is_expiry_error
                     (err_validation_failed (ValidationError inner flags text))
                   <-> Z.land flags jwt.ValidationErrorExpired <> 0)))
        /\ (forall sigerr,
              jwt_Method_Verify env (jwt.Method tok) ss (jwt.Signature tok) pub
                = Some sigerr ->
              exists flags text,
                verifyAppleIDToken env tokenString audience s
                  = (Err (err_validation_failed
                            (ValidationError (Some sigerr) flags text)), s1)
                /\ Z.land flags jwt.ValidationErrorSignatureInvalid <> 0))
  /\ (forall e,
        jwk_Fetch env apple_keys_url = Err e ->
        verifyAppleIDToken env tokenString audience s
          = (Err (Errorf_w "failed to fetch Apple JWKs: " e),
             push (EvFetch apple_keys_url) s)
        /\ ~ is_expiry_error (Errorf_w "failed to fetch Apple JWKs: " e))
  /\ (forall set msg s1,
        jwk_Fetch env apple_keys_url = Ok set ->
        keyFunc env set tok (push (EvFetch apple_keys_url) s)
          = (Err (errorString msg), s1) ->
        verifyAppleIDToken env tokenString audience s
          = (Err (err_validation_failed
                    (ValidationError (Some (errorString msg))
                       jwt.ValidationErrorUnverifiable EmptyString)), s1)
        /\ ~ is_expiry_error
               (err_validation_failed
                  (ValidationError (Some (errorString msg))
                     jwt.ValidationErrorUnverifiable EmptyString))).
Proof.
  intros HP Hexp.
  assert (forall set token s1,
            jwt_Parse env tokenString (keyFunc env set)
              (push (EvFetch apple_keys_url) s) = (Ok token, s1) ->
            check_claims env token audience = Err err_token_expired) as Hcheck.
  { intros set token s1 H.
    apply jwt_Parse_Ok_inv in H as (tok' & ss' & key & HP' & _ & -> & _).
    rewrite HP in HP'. inversion HP'; subst tok' ss'.
    unfold check_claims. simpl. by rewrite Hexp. }
  assert (check_claims env (jwt.set_Valid tok true) audience = Err err_token_expired)
    as Hcheck'.
  { unfold check_claims. simpl. by rewrite Hexp. }
  split; [|split; [|split; [|split]]].
  - rewrite verifyAppleIDToken_run.
    destruct (jwk_Fetch env apple_keys_url) as [set|e]; [|done].
    destruct (jwt_Parse env tokenString (keyFunc env set) _) as [[token|e] s1] eqn:E;
      [|done].
    simpl. by rewrite (Hcheck set token s1 E).
  - intros set token s1 HF HJ.
    rewrite verifyAppleIDToken_run, HF, HJ. by rewrite (Hcheck set token s1 HJ).
  - intros set pub s1 HF HK.
    rewrite (verifyAppleIDToken_with_key env tokenString audience s s1 set tok ss pub
               HF HP HK).
    unfold parse_with_key. split.
    + intros ->. split.
      * intros [->|(inner & text & ->)]; simpl; by rewrite Hcheck'.
      * intros inner flags text -> Hf. simpl.
        apply Z.eqb_neq in Hf. rewrite Hf. split; [done|].
        apply is_expiry_error_validation.
    + intros sigerr ->.
      destruct (match jwt_Claims_Valid env (jwt.Claims tok) with
                | None => (None, 0, EmptyString)
                | Some (ValidationError i f t) => (i, f, t)
                | Some e => (Some e, jwt.ValidationErrorClaimsInvalid, EmptyString)
                end) as [[inner flags] text].
      cbv beta iota.
      assert (Z.land (Z.lor flags jwt.ValidationErrorSignatureInvalid)
                jwt.ValidationErrorSignatureInvalid <> 0) as Hx
        by (by apply land_lor_same_nonzero).
      destruct (Z.eqb (Z.lor flags jwt.ValidationErrorSignatureInvalid) 0) eqn:Hz.
      * apply Z.eqb_eq in Hz. rewrite Hz in Hx. by destruct Hx.
      * by eexists _, _.
  - intros e HF. rewrite verifyAppleIDToken_run, HF. split; [done|].
    apply not_expiry_fetch_failed.
  - intros set msg s1 HF HK.
    rewrite verifyAppleIDToken_run, HF.
    rewrite (jwt_Parse_keyFunc_errorString env tokenString (keyFunc env set) _ s1
               tok ss msg HP HK).
    split; [done|]. rewrite is_expiry_error_validation. by intros H.
Qed.

Lemma C1_witness :
  is_Err (fst (verifyAppleIDToken Cases.env "expired" Demo.app_audience Demo.s0)) = true
  /\ verifyAppleIDToken Cases.env "expired" Demo.app_audience Demo.s0
     = (Err (err_validation_failed
               (ValidationError (Some (errorString "Token is expired"))
                  jwt.ValidationErrorExpired EmptyString)),
        push (EvLookupKeyID "W6WcOKB") (push (EvFetch apple_keys_url) Demo.s0))
  /\ (is_expiry_error
        (err_validation_failed
           (ValidationError (Some (errorString "Token is expired"))
              jwt.ValidationErrorExpired EmptyString))
      <-> Z.land jwt.ValidationErrorExpired jwt.ValidationErrorExpired <> 0).
Proof.
  destruct (C1_expired_token_never_verifies Cases.env "expired" Demo.app_audience
              Demo.s0
              (Demo.mk_token "expired" Demo.es256 "ES256" "W6WcOKB"
                 (Demo.alice (Some (Demo.now_sec - 3600))
                    (Some (VString Demo.app_audience)))
                 (Demo.signed_by "P-256 public key W6WcOKB"))
              "expired") as (H1 & _ & H3 & _).
  - vm_compute. reflexivity.
  - vm_compute. reflexivity.
  - split; [exact H1|].
    destruct (H3 Cases.key_set "P-256 public key W6WcOKB"
                (push (EvLookupKeyID "W6WcOKB") (push (EvFetch apple_keys_url) Demo.s0)))
      as [Hvalid _].
    + reflexivity.
    + vm_compute. reflexivity.
    + destruct Hvalid as [_ Hflag].
      * vm_compute. reflexivity.
      * apply (Hflag (Some (errorString "Token is expired"))
                 jwt.ValidationErrorExpired EmptyString).
        -- vm_compute. reflexivity.
        -- vm_compute. discriminate.
Defined.

(** ** C2: key-set refresh *)

(** C2, as stated, fails.  A token whose [kid] is absent from the key set:
    no fetch follows the missed lookup (the claim says exactly one).  And a
    process that has fetched the key set before fetches it again for a token
    whose [kid] is in it (the claim says not on every call). *)
Lemma C2_no_refresh_and_fetch_on_every_call :
  jwk.LookupKeyID Demo.apple_set "YuyXoY" = None
  /\ new_events Demo.s0
       (snd (verifyAppleIDToken Demo.env "expired-rotated-kid" Demo.app_audience Demo.s0))
     = [EvFetch apple_keys_url; EvLookupKeyID "YuyXoY"]
  /\ fetches_after_lookup
       (new_events Demo.s0
          (snd (verifyAppleIDToken Demo.env "expired-rotated-kid" Demo.app_audience Demo.s0)))
     <> 1%nat
  /\ is_Some (jwk.LookupKeyID Demo.apple_set "W6WcOKB")
  /\ count_fetches
       (new_events Demo.s1
          (snd (verifyAppleIDToken Demo.env "good" Demo.app_audience Demo.s1)))
     <> 0%nat.
Proof.
  split; [reflexivity|].
  split; [vm_compute; reflexivity|].
  split; [vm_compute; discriminate|].
  split; [vm_compute; eauto|].
  vm_compute. discriminate.
Qed.

(** C2, amended: every verification call fetches the key set exactly once,
    before the token is parsed; a token whose [kid] is absent from the set
    just fetched fails with "no matching JWK for kid", and the miss is
    followed by no refresh. *)
Theorem C2_one_fetch_per_call_no_refresh (env : Env) (tokenString audience : string)
    (s : State) (set : jwk.Set_) (tok : jwt.Token) (ss keyID : string) :
  jwk_Fetch env apple_keys_url = Ok set ->
  jwt_ParseUnverified env tokenString = Ok (tok, ss) ->
  jwt.is_ECDSA (jwt.Method tok) = true ->
  jwt.Header tok !! "kid" = Some (VString keyID) ->
  jwk.LookupKeyID set keyID = None ->
  verifyAppleIDToken env tokenString audience s
    = (Err (err_validation_failed
              (ValidationError (Some (err_no_matching_JWK keyID))
                 jwt.ValidationErrorUnverifiable EmptyString)),
       push (EvLookupKeyID keyID) (push (EvFetch apple_keys_url) s))
  /\ fetches_after_lookup
       (new_events s (snd (verifyAppleIDToken env tokenString audience s))) = 0%nat
  /\ (forall tokenString' audience' s',
        count_fetches
          (new_events s' (snd (verifyAppleIDToken env tokenString' audience' s')))
        = 1%nat).
Proof.
  intros HF HP HM HK HL.
  assert (verifyAppleIDToken env tokenString audience s
          = (Err (err_validation_failed
                    (ValidationError (Some (err_no_matching_JWK keyID))
                       jwt.ValidationErrorUnverifiable EmptyString)),
             push (EvLookupKeyID keyID) (push (EvFetch apple_keys_url) s))) as Hrun.
  { rewrite verifyAppleIDToken_run, HF.
    rewrite (jwt_Parse_keyFunc_errorString env tokenString (keyFunc env set) _
               (push (EvLookupKeyID keyID) (push (EvFetch apple_keys_url) s))
               tok ss ("no matching JWK for kid: " +:+ keyID) HP); [done|].
    rewrite (keyFunc_lookup env set tok _ keyID HM HK). by rewrite HL. }
  split; [exact Hrun|]. split.
  - rewrite Hrun. simpl.
    rewrite (new_events_app s _ [EvFetch apple_keys_url; EvLookupKeyID keyID]);
      [done|]. simpl. by rewrite <- app_assoc.
  - intros t a s'.
    destruct (verifyAppleIDToken_state env t a s') as (_ & _ & [H|[k H]]);
      by rewrite (new_events_app _ _ _ H).
Qed.

Lemma C2_witness :
  verifyAppleIDToken Demo.env "expired-rotated-kid" Demo.app_audience Demo.s0
    = (Err (err_validation_failed
              (ValidationError (Some (err_no_matching_JWK "YuyXoY"))
                 jwt.ValidationErrorUnverifiable EmptyString)),
       push (EvLookupKeyID "YuyXoY") (push (EvFetch apple_keys_url) Demo.s0))
  /\ fetches_after_lookup
       (new_events Demo.s0
          (snd (verifyAppleIDToken Demo.env "expired-rotated-kid" Demo.app_audience Demo.s0)))
     = 0%nat
  /\ count_fetches
       (new_events Demo.s1
          (snd (verifyAppleIDToken Demo.env "good" Demo.app_audience Demo.s1)))
     = 1%nat.
Proof.
  destruct (C2_one_fetch_per_call_no_refresh Demo.env "expired-rotated-kid"
              Demo.app_audience Demo.s0 Demo.apple_set
              (Demo.mk_token "expired-rotated-kid" Demo.es256 "ES256" "YuyXoY"
                 (Demo.alice (Some (Demo.now_sec - 3600))
                    (Some (VString Demo.app_audience)))
                 (Demo.signed_by "P-256 public key YuyXoY"))
              "expired-rotated-kid" "YuyXoY") as (H1 & H2 & H3).
  - reflexivity.
  - vm_compute. reflexivity.
  - reflexivity.
  - vm_compute. reflexivity.
  - reflexivity.
  - split; [exact H1|]. split; [exact H2|]. apply H3.
Defined.

(** ** C3: the algorithm check *)

(** C3, as stated, fails: the key set is fetched before the token is looked
    at, so when Apple's endpoint is unreachable an HS256 token is answered
    with the fetch error, not with the unsupported-algorithm error. *)
Lemma C3_fetch_failure_comes_first :
  exists tok ss,
    jwt_ParseUnverified Demo.env_down "hs256" = Ok (tok, ss)
    /\ jwt.is_ECDSA (jwt.Method tok) = false
    /\ fst (verifyAppleIDToken Demo.env_down "hs256" Demo.app_audience Demo.s0)
       = Err (Errorf_w "failed to fetch Apple JWKs: "
                (errorString "failed to fetch: connection refused"))
    /\ fst (verifyAppleIDToken Demo.env_down "hs256" Demo.app_audience Demo.s0)
       <> Err (err_validation_failed
                 (ValidationError
                    (Some (err_unexpected_signing_method Demo.env_down
                             (jwt.Header tok !! "alg")))
                    jwt.ValidationErrorUnverifiable EmptyString)).
Proof.
  eexists _, _. split; [vm_compute; reflexivity|].
  split; [reflexivity|].
  split; [vm_compute; reflexivity|].
  vm_compute. discriminate.
Qed.

(** C3, amended: once the key set has been fetched, a token whose signing
    method is not an ECDSA method fails with "unexpected signing method"
    (wrapped in "apple token validation failed"), and no key is looked up:
    the fetch is the only event of the call. *)
Theorem C3_algorithm_check_before_lookup (env : Env) (tokenString audience : string)
    (s : State) (set : jwk.Set_) (tok : jwt.Token) (ss : string) :
  jwk_Fetch env apple_keys_url = Ok set ->
  jwt_ParseUnverified env tokenString = Ok (tok, ss) ->
  jwt.is_ECDSA (jwt.Method tok) = false ->
  verifyAppleIDToken env tokenString audience s
    = (Err (err_validation_failed
              (ValidationError
                 (Some (err_unexpected_signing_method env (jwt.Header tok !! "alg")))
                 jwt.ValidationErrorUnverifiable EmptyString)),
       push (EvFetch apple_keys_url) s)
  /\ List.filter is_lookup
       (new_events s (snd (verifyAppleIDToken env tokenString audience s))) = [].
Proof.
  intros HF HP HM.
  assert (verifyAppleIDToken env tokenString audience s
          = (Err (err_validation_failed
                    (ValidationError
                       (Some (err_unexpected_signing_method env (jwt.Header tok !! "alg")))
                       jwt.ValidationErrorUnverifiable EmptyString)),
             push (EvFetch apple_keys_url) s)) as Hrun.
  { rewrite verifyAppleIDToken_run, HF.
    rewrite (jwt_Parse_keyFunc_errorString env tokenString (keyFunc env set) _
               (push (EvFetch apple_keys_url) s) tok ss
               ("unexpected signing method: " +:+ Sprint_v env (jwt.Header tok !! "alg"))
               HP); [done|].
    by rewrite (keyFunc_not_ECDSA env set tok _ HM). }
  split; [exact Hrun|].
  rewrite Hrun. simpl. by rewrite new_events_push.
Qed.

Lemma C3_witness :
  verifyAppleIDToken Demo.env "hs256" Demo.app_audience Demo.s0
    = (Err (err_validation_failed
              (ValidationError
                 (Some (err_unexpected_signing_method Demo.env (Some (VString "HS256"))))
                 jwt.ValidationErrorUnverifiable EmptyString)),
       push (EvFetch apple_keys_url) Demo.s0)
  /\ List.filter is_lookup
       (new_events Demo.s0
          (snd (verifyAppleIDToken Demo.env "hs256" Demo.app_audience Demo.s0))) = [].
Proof.
  apply (C3_algorithm_check_before_lookup Demo.env "hs256" Demo.app_audience Demo.s0
           Demo.apple_set
           (Demo.mk_token "hs256" (jwt.SigningMethodHMAC "HS256") "HS256" "W6WcOKB"
              (Demo.alice (Some (Demo.now_sec + 3600))
                 (Some (VString Demo.app_audience)))
              "hmac with the public key as secret")
           "hs256").
  - reflexivity.
  - vm_compute. reflexivity.
  - reflexivity.
Defined.

(** ** C4: the [exp] claim *)

(** C4, as stated, fails: a token with no [exp] claim, signed by a key of the
    set and with the expected audience, passes verification. *)
Lemma C4_token_without_exp_verifies :
  fst (verifyAppleIDToken Demo.env "no-exp" Demo.app_audience Demo.s0)
    = Ok (Demo.alice None (Some (VString Demo.app_audience)))
  /\ Demo.alice None (Some (VString Demo.app_audience)) !! "exp" = None.
Proof. split; vm_compute; reflexivity. Qed.

Lemma err_invalid_audience_inj (a b : string) :
  err_invalid_audience a = err_invalid_audience b -> a = b.
Proof. unfold err_invalid_audience. simpl. intros H. by inversion H. Qed.

(** The expiry test of line 112, spelled out. *)
Lemma exp_is_past_iff (env : Env) (claims : MapClaims) :
  exp_is_past env claims = true
  <-> exists exp,
        claims !! "exp" = Some (VNumber exp)
        /\ Before (time_Unix (int64 env exp) 0) (time_Now env) = true.
Proof.
  unfold exp_is_past, as_float64.
  destruct (claims !! "exp") as [[]|]; split;
    try discriminate; try (intros (exp & ? & ?); discriminate);
    [by eexists | intros (exp & Heq & H); by inversion Heq; subst].
Qed.

(** C4, amended: [exp], when present, must be in the future.  For a token
    whose key was found and whose signature verifies, verification fails
    with an expiry error exactly when golang-jwt's claim validation flags
    expiry (as it does for a past [exp] and for an [exp] that is not a
    number), the error being the library's, wrapped; or when the library
    accepted the claims (as it does for the number 0) and [exp] is a number
    that, read as seconds, lies before the clock of line 113, the error
    being "token expired".  A token with no [exp] claim that the library
    accepted is not rejected for expiry: it goes on to the audience check
    and, with no mismatching [aud], verifies. *)
Theorem C4_expiry_error_exactly_when_flagged_or_past (env : Env)
    (tokenString audience : string) (s s1 : State) (set : jwk.Set_)
    (tok : jwt.Token) (ss : string) (pub : jwk.PublicKey) :
  jwk_Fetch env apple_keys_url = Ok set ->
  jwt_ParseUnverified env tokenString = Ok (tok, ss) ->
  keyFunc env set tok (push (EvFetch apple_keys_url) s) = (Ok pub, s1) ->
  jwt_Method_Verify env (jwt.Method tok) ss (jwt.Signature tok) pub = None ->
  ((exists e,
      fst (verifyAppleIDToken env tokenString audience s) = Err e
      /\ is_expiry_error e)
   <-> library_flags_expiry env (jwt.Claims tok)
       \/ (library_accepts env (jwt.Claims tok)
           /\ exists exp,
                jwt.Claims tok !! "exp" = Some (VNumber exp)
                /\ Before (time_Unix (int64 env exp) 0) (time_Now env) = true))
  /\ (forall inner flags text,
        jwt_Claims_Valid env (jwt.Claims tok)
          = Some (ValidationError inner flags text) ->
        Z.land flags jwt.ValidationErrorExpired <> 0 ->
        verifyAppleIDToken env tokenString audience s
          = (Err (err_validation_failed (ValidationError inner flags text)), s1))
  /\ (forall exp,
        library_accepts env (jwt.Claims tok) ->
        jwt.Claims tok !! "exp" = Some (VNumber exp) ->
        Before (time_Unix (int64 env exp) 0) (time_Now env) = true ->
        verifyAppleIDToken env tokenString audience s = (Err err_token_expired, s1))
  /\ (library_accepts env (jwt.Claims tok) ->
      jwt.Claims tok !! "exp" = None ->
      verifyAppleIDToken env tokenString audience s
        = (match aud_mismatch (jwt.Claims tok) audience with
           | Some aud => Err (err_invalid_audience aud)
           | None => Ok (jwt.Claims tok)
           end, s1)).
Proof.
  intros HF HP HK HV.
  rewrite (verifyAppleIDToken_with_key env tokenString audience s s1 set tok ss pub
             HF HP HK).
  assert (library_accepts env (jwt.Claims tok) ->
          parse_with_key env tok ss pub = Ok (jwt.set_Valid tok true)) as Hacc.
  { unfold parse_with_key. rewrite HV. by intros [->|(i & t & ->)]. }
  assert (forall i f t,
            jwt_Claims_Valid env (jwt.Claims tok) = Some (ValidationError i f t) ->
            f <> 0 ->
            parse_with_key env tok ss pub = Err (ValidationError i f t)) as Hrej.
  { intros i f t EC Hf. unfold parse_with_key. rewrite HV, EC.
    apply Z.eqb_neq in Hf. by rewrite Hf. }
  assert (check_claims env (jwt.set_Valid tok true) audience
          = if exp_is_past env (jwt.Claims tok) then Err err_token_expired
            else match aud_mismatch (jwt.Claims tok) audience with
                 | Some aud => Err (err_invalid_audience aud)
                 | None => Ok (jwt.Claims tok)
                 end) as Hcc by done.
  assert (forall f, Z.land f jwt.ValidationErrorExpired <> 0 -> f <> 0) as Hnz.
  { intros f Hf ->. by apply Hf. }
  split; [|split; [|split]].
  - split.
    + intros (e & He & Hexp). simpl in He.
      destruct (jwt_Claims_Valid env (jwt.Claims tok)) as [ce|] eqn:EC.
      * destruct ce as [m|m e'|i f t].
        -- unfold parse_with_key in He. rewrite HV, EC in He. simpl in He.
           inversion He; subst e. apply is_expiry_error_validation in Hexp.
           by destruct Hexp.
        -- unfold parse_with_key in He. rewrite HV, EC in He. simpl in He.
           inversion He; subst e. apply is_expiry_error_validation in Hexp.
           by destruct Hexp.
        -- destruct (decide (f = 0)) as [->|Hf].
           ++ right.
              assert (library_accepts env (jwt.Claims tok)) as HA
                by (right; by eexists _, _).
              split; [exact HA|]. apply exp_is_past_iff.
              rewrite (Hacc HA), Hcc in He.
              destruct (exp_is_past env (jwt.Claims tok)); [done|].
              destruct (aud_mismatch (jwt.Claims tok) audience); [|discriminate].
              inversion He; subst e. by apply not_expiry_invalid_audience in Hexp.
           ++ left. rewrite (Hrej i f t eq_refl Hf) in He. inversion He; subst e.
              apply is_expiry_error_validation in Hexp. by exists i, f, t.
      * right.
        assert (library_accepts env (jwt.Claims tok)) as HA by (by left).
        split; [exact HA|]. apply exp_is_past_iff.
        rewrite (Hacc HA), Hcc in He.
        destruct (exp_is_past env (jwt.Claims tok)); [done|].
        destruct (aud_mismatch (jwt.Claims tok) audience); [|discriminate].
        inversion He; subst e. by apply not_expiry_invalid_audience in Hexp.
    + intros [(i & f & t & EC & Hf)|[HA Hpast]].
      * rewrite (Hrej i f t EC (Hnz f Hf)). eexists. split; [reflexivity|].
        by apply is_expiry_error_validation.
      * apply exp_is_past_iff in Hpast. rewrite (Hacc HA), Hcc, Hpast.
        exists err_token_expired. split; [done|]. by left.
  - intros i f t EC Hf. by rewrite (Hrej i f t EC (Hnz f Hf)).
  - intros exp HA He Hb. rewrite (Hacc HA), Hcc.
    assert (exp_is_past env (jwt.Claims tok) = true) as ->; [|done].
    apply exp_is_past_iff. by exists exp.
  - intros HA He. rewrite (Hacc HA), Hcc.
    unfold exp_is_past. by rewrite He.
Qed.

Lemma C4_witness :
  ((exists e,
      fst (verifyAppleIDToken Cases.env "text-exp" Demo.app_audience Demo.s0) = Err e
      /\ is_expiry_error e)
   <-> library_flags_expiry Cases.env
         (<[ "exp" := VString "tomorrow" ]>
            (Demo.alice None (Some (VString Demo.app_audience))))
       \/ (library_accepts Cases.env
             (<[ "exp" := VString "tomorrow" ]>
                (Demo.alice None (Some (VString Demo.app_audience))))
           /\ exists exp,
                (<[ "exp" := VString "tomorrow" ]>
                   (Demo.alice None (Some (VString Demo.app_audience))) : MapClaims)
                  !! "exp" = Some (VNumber exp)
                /\ Before (time_Unix (int64 Cases.env exp) 0) (time_Now Cases.env) = true))
  /\ verifyAppleIDToken Cases.env "text-exp" Demo.app_audience Demo.s0
     = (Err (err_validation_failed
               (ValidationError (Some (errorString "Token is expired"))
                  jwt.ValidationErrorExpired EmptyString)),
        push (EvLookupKeyID "W6WcOKB") (push (EvFetch apple_keys_url) Demo.s0)).
Proof.
  destruct (C4_expiry_error_exactly_when_flagged_or_past Cases.env "text-exp"
              Demo.app_audience Demo.s0
              (push (EvLookupKeyID "W6WcOKB") (push (EvFetch apple_keys_url) Demo.s0))
              Cases.key_set
              (Demo.mk_token "text-exp" Demo.es256 "ES256" "W6WcOKB"
                 (<[ "exp" := VString "tomorrow" ]>
                    (Demo.alice None (Some (VString Demo.app_audience))))
                 (Demo.signed_by "P-256 public key W6WcOKB"))
              "text-exp" "P-256 public key W6WcOKB") as (H1 & H2 & _).
  - reflexivity.
  - vm_compute. reflexivity.
  - vm_compute. reflexivity.
  - vm_compute. reflexivity.
  - split; [exact H1|].
    apply (H2 (Some (errorString "Token is expired")) jwt.ValidationErrorExpired
             EmptyString).
    + vm_compute. reflexivity.
    + vm_compute. discriminate.
Defined.

(** ** C5: the [aud] claim *)

(** C5, as stated, fails: a token with no [aud] claim passes verification
    against a configured audience. *)
Lemma C5_token_without_aud_verifies :
  fst (verifyAppleIDToken Demo.env "no-aud" Demo.app_audience Demo.s0)
    = Ok (Demo.alice (Some (Demo.now_sec + 3600)) None)
  /\ Demo.alice (Some (Demo.now_sec + 3600)) None !! "aud" = None.
Proof. split; vm_compute; reflexivity. Qed.

(** C5, amended: for a token [jwt.Parse] accepted and that is not expired,
    verification fails with "invalid audience" exactly when [aud] is present
    as a single string different from the configured audience; a token
    whose [aud] is absent, or not a string, is not rejected for its
    audience and verifies. *)
Theorem C5_audience_checked_only_when_string (env : Env)
    (tokenString audience : string) (s s1 : State) (set : jwk.Set_)
    (token : jwt.Token) :
  jwk_Fetch env apple_keys_url = Ok set ->
  jwt_Parse env tokenString (keyFunc env set) (push (EvFetch apple_keys_url) s)
    = (Ok token, s1) ->
  exp_is_past env (jwt.Claims token) = false ->
  (forall aud,
     fst (verifyAppleIDToken env tokenString audience s) = Err (err_invalid_audience aud)
     <-> jwt.Claims token !! "aud" = Some (VString aud) /\ aud <> audience)
  /\ (fst (verifyAppleIDToken env tokenString audience s) = Ok (jwt.Claims token)
      <-> forall aud, jwt.Claims token !! "aud" = Some (VString aud) -> aud = audience)
  /\ (as_string (jwt.Claims token !! "aud") = None ->
      fst (verifyAppleIDToken env tokenString audience s) = Ok (jwt.Claims token)).
Proof.
  intros HF HJ Hexp.
  assert (jwt.Valid token = true) as HV.
  { by apply jwt_Parse_Ok_inv in HJ as (tok & ss & key & _ & _ & -> & _). }
  rewrite verifyAppleIDToken_run, HF, HJ. simpl.
  unfold check_claims. rewrite HV, Hexp. simpl.
  unfold aud_mismatch, as_string.
  destruct (jwt.Claims token !! "aud") as [v|] eqn:EA.
  2:{ split; [|split]; [intros aud; split| |done].
      - discriminate.
      - by intros [? _].
      - split; [discriminate|done]. }
  destruct v as [|b|f|a|l|l];
    try (split; [|split]; [intros aud; split| |done];
         [discriminate | by intros [? _] | split; [discriminate|done]]).
  destruct (decide (a = audience)) as [->|Hne].
  - rewrite bool_decide_eq_false_2 by (intros H; by apply H).
    split; [|split]; [intros aud; split| |discriminate].
    + discriminate.
    + intros [H Hd]. by inversion H; subst.
    + split; [|done]. intros _ aud H. by inversion H.
  - rewrite bool_decide_eq_true_2 by done.
    split; [|split]; [intros aud; split| |discriminate].
    + intros H. assert (a = aud) as <-; [|done].
      apply err_invalid_audience_inj. congruence.
    + intros [H Hd]. by inversion H; subst.
    + split; [discriminate|]. intros H. exfalso. apply Hne. by apply H.
Qed.

Lemma C5_witness :
  (forall aud,
     fst (verifyAppleIDToken Demo.env "other-aud" Demo.app_audience Demo.s0)
       = Err (err_invalid_audience aud)
     <-> Demo.alice (Some (Demo.now_sec + 3600)) (Some (VString "com.other.app")) !! "aud"
           = Some (VString aud)
         /\ aud <> Demo.app_audience)
  /\ (fst (verifyAppleIDToken Demo.env "other-aud" Demo.app_audience Demo.s0)
        = Ok (Demo.alice (Some (Demo.now_sec + 3600)) (Some (VString "com.other.app")))
      <-> forall aud,
            Demo.alice (Some (Demo.now_sec + 3600)) (Some (VString "com.other.app")) !! "aud"
              = Some (VString aud) -> aud = Demo.app_audience)
  /\ (as_string
        (Demo.alice (Some (Demo.now_sec + 3600)) (Some (VString "com.other.app")) !! "aud")
        = None ->
      fst (verifyAppleIDToken Demo.env "other-aud" Demo.app_audience Demo.s0)
        = Ok (Demo.alice (Some (Demo.now_sec + 3600)) (Some (VString "com.other.app")))).
Proof.
  apply (C5_audience_checked_only_when_string Demo.env "other-aud" Demo.app_audience
           Demo.s0
           (push (EvLookupKeyID "fh6Bs8C") (push (EvFetch apple_keys_url) Demo.s0))
           Demo.apple_set
           (jwt.set_Valid
              (Demo.mk_token "other-aud" Demo.es256 "ES256" "fh6Bs8C"
                 (Demo.alice (Some (Demo.now_sec + 3600))
                    (Some (VString "com.other.app")))
                 (Demo.signed_by "P-256 public key fh6Bs8C")) true)).
  - reflexivity.
  - vm_compute. reflexivity.
  - vm_compute. reflexivity.
Defined.

(** ** C6: no exchange without verification *)

(** C6: on both provider paths the call to Cognito's [InitiateAuth] is made
    only after verification succeeded.  When verification returns an error
    the handler answers 401 with the failure text and returns, and no
    exchange is among the events of the request; and a request whose events
    include the exchange is one whose body decoded and whose token verified. *)
Theorem C6_exchange_only_after_verification (env : Env) (request : string)
    (s : State) :
  (forall id_token err s1,
     json_Unmarshal env request = Ok id_token ->
     verifyAppleIDToken env id_token (default EmptyString (environ s !! "APPLE_CLIENT_ID")) s
       = (Err err, s1) ->
     fst (loginWithAppleHandler env request s)
       = Responded (http_Error (apple_error_body err) StatusUnauthorized)
     /\ List.filter is_exchange
          (new_events s (snd (loginWithAppleHandler env request s))) = [])
  /\ (forall id_token err,
        json_Unmarshal env request = Ok id_token ->
        idtoken_Validate env id_token (googleClientID (globals s)) = Err err ->
        fst (loginWithGoogleHandler env request s)
          = Responded (http_Error ("invalid google token: " +:+ Error err)
                         StatusUnauthorized)
        /\ List.filter is_exchange
             (new_events s (snd (loginWithGoogleHandler env request s))) = [])
  /\ (List.filter is_exchange
        (new_events s (snd (loginWithAppleHandler env request s))) <> [] ->
      exists id_token claims s1,
        json_Unmarshal env request = Ok id_token
        /\ verifyAppleIDToken env id_token
             (default EmptyString (environ s !! "APPLE_CLIENT_ID")) s = (Ok claims, s1))
  /\ (List.filter is_exchange
        (new_events s (snd (loginWithGoogleHandler env request s))) <> [] ->
      exists id_token payload,
        json_Unmarshal env request = Ok id_token
        /\ idtoken_Validate env id_token (googleClientID (globals s)) = Ok payload).
Proof.
  assert (forall id_token err s1,
     json_Unmarshal env request = Ok id_token ->
     verifyAppleIDToken env id_token (default EmptyString (environ s !! "APPLE_CLIENT_ID")) s
       = (Err err, s1) ->
     fst (loginWithAppleHandler env request s)
       = Responded (http_Error (apple_error_body err) StatusUnauthorized)
     /\ List.filter is_exchange
          (new_events s (snd (loginWithAppleHandler env request s))) = []) as HA.
  { intros id_token err s1 HU HV.
    rewrite (loginWithAppleHandler_unverified env request id_token s s1 err HU HV).
    split; [done|]. simpl.
    pose proof (verifyAppleIDToken_state env id_token
                  (default EmptyString (environ s !! "APPLE_CLIENT_ID")) s)
      as (_ & _ & He).
    rewrite HV in He. simpl in He.
    destruct He as [He|[k He]]; by rewrite (new_events_app _ _ _ He). }
  assert (forall id_token err,
     json_Unmarshal env request = Ok id_token ->
     idtoken_Validate env id_token (googleClientID (globals s)) = Err err ->
     fst (loginWithGoogleHandler env request s)
       = Responded (http_Error ("invalid google token: " +:+ Error err)
                      StatusUnauthorized)
     /\ List.filter is_exchange
          (new_events s (snd (loginWithGoogleHandler env request s))) = []) as HG.
  { intros id_token err HU HV.
    rewrite (loginWithGoogleHandler_unverified env request id_token s err HU HV).
    split; [done|]. simpl. by rewrite new_events_push. }
  split; [exact HA|]. split; [exact HG|]. split.
  - intros Hx.
    destruct (json_Unmarshal env request) as [id_token|e] eqn:HU.
    + destruct (verifyAppleIDToken env id_token
                  (default EmptyString (environ s !! "APPLE_CLIENT_ID")) s)
        as [[claims|err] s1] eqn:HV; [by eauto|].
      exfalso. apply Hx. by apply (HA id_token err s1).
    + exfalso. apply Hx. unfold loginWithAppleHandler. rewrite HU. simpl.
      by rewrite (new_events_app s s []) by (by rewrite app_nil_r).
  - intros Hx.
    destruct (json_Unmarshal env request) as [id_token|e] eqn:HU.
    + destruct (idtoken_Validate env id_token (googleClientID (globals s)))
        as [payload|err] eqn:HV; [by eauto|].
      exfalso. apply Hx. by apply (HG id_token err).
    + exfalso. apply Hx. unfold loginWithGoogleHandler. rewrite HU. simpl.
      by rewrite (new_events_app s s []) by (by rewrite app_nil_r).
Qed.

Lemma C6_witness :
  (fst (loginWithAppleHandler Demo.env (Demo.request "hs256") Demo.s0)
     = Responded (http_Error
         (apple_error_body
            (err_validation_failed
               (ValidationError
                  (Some (err_unexpected_signing_method Demo.env (Some (VString "HS256"))))
                  jwt.ValidationErrorUnverifiable EmptyString)))
         StatusUnauthorized)
   /\ List.filter is_exchange
        (new_events Demo.s0
           (snd (loginWithAppleHandler Demo.env (Demo.request "hs256") Demo.s0))) = [])
  /\ (fst (loginWithGoogleHandler Demo.env (Demo.request "hs256") Demo.s0)
        = Responded (http_Error
            ("invalid google token: "
               +:+ "idtoken: invalid token, token must have three segments")
            StatusUnauthorized)
      /\ List.filter is_exchange
           (new_events Demo.s0
              (snd (loginWithGoogleHandler Demo.env (Demo.request "hs256") Demo.s0))) = [])
  /\ (exists id_token claims s1,
        json_Unmarshal Demo.env (Demo.request "good") = Ok id_token
        /\ verifyAppleIDToken Demo.env id_token
             (default EmptyString (environ Demo.s0 !! "APPLE_CLIENT_ID")) Demo.s0
           = (Ok claims, s1))
  /\ (exists id_token payload,
        json_Unmarshal Demo.env (Demo.request "google-bob") = Ok id_token
        /\ idtoken_Validate Demo.env id_token (googleClientID (globals Demo.s0))
           = Ok payload).
Proof.
  destruct (C6_exchange_only_after_verification Demo.env (Demo.request "hs256")
              Demo.s0) as (HA & HG & _ & _).
  destruct (C6_exchange_only_after_verification Demo.env (Demo.request "good")
              Demo.s0) as (_ & _ & HXA & _).
  destruct (C6_exchange_only_after_verification Demo.env (Demo.request "google-bob")
              Demo.s0) as (_ & _ & _ & HXG).
  split; [|split; [|split]].
  - apply (HA "hs256" _ (push (EvFetch apple_keys_url) Demo.s0)).
    + vm_compute. reflexivity.
    + vm_compute. reflexivity.
  - apply (HG "hs256"
             (errorString "idtoken: invalid token, token must have three segments")).
    + vm_compute. reflexivity.
    + vm_compute. reflexivity.
  - apply HXA. vm_compute. discriminate.
  - apply HXG. vm_compute. discriminate.
Defined.

(** ** C7: the Apple path when the exchange fails *)

(** C7: when the Apple token verifies and the call to [InitiateAuth] returns
    an error, the handler answers 200 with the one member [message],
    "Apple login verified for <email> (Cognito not configured)", where
    <email> is the [%v] format of the [email] claim: the claim itself when
    it is a string. *)
Theorem C7_apple_degrades_to_message (env : Env) (body id_token : string)
    (s s1 : State) (claims : MapClaims) (err : error) :
  json_Unmarshal env body = Ok id_token ->
  verifyAppleIDToken env id_token (default EmptyString (environ s !! "APPLE_CLIENT_ID")) s
    = (Ok claims, s1) ->
  cognito_InitiateAuth env
    {| cognito.AuthFlow := "CUSTOM_AUTH";
       cognito.ClientId := clientIDApple (globals s1);
       cognito.AuthParameters := {[ "USERNAME" := Sprint_v env (claims !! "email") ]} |}
    = Err err ->
  fst (loginWithAppleHandler env body s)
    = Responded
        {| status := 200;
           body := JSONObject
             [("message",
               "Apple login verified for " +:+ Sprint_v env (claims !! "email")
                 +:+ " (Cognito not configured)")] |}
  /\ (forall email,
        claims !! "email" = Some (VString email) ->
        fst (loginWithAppleHandler env body s)
          = Responded
              {| status := 200;
                 body := JSONObject
                   [("message",
                     "Apple login verified for " +:+ email
                       +:+ " (Cognito not configured)")] |}).
Proof.
  intros HU HV HC.
  pose proof (loginWithAppleHandler_verified env body id_token s s1 claims HU HV) as H.
  cbv zeta in H. rewrite HC in H. rewrite H. simpl.
  split; [done|]. intros email He. by rewrite He.
Qed.

Lemma C7_witness :
  fst (loginWithAppleHandler Demo.env (Demo.request "good") Demo.s0)
    = Responded
        {| status := 200;
           body := JSONObject
             [("message",
               "Apple login verified for alice@example.com (Cognito not configured)")] |}.
Proof.
  destruct (C7_apple_degrades_to_message Demo.env (Demo.request "good") "good"
              Demo.s0
              (push (EvLookupKeyID "W6WcOKB") (push (EvFetch apple_keys_url) Demo.s0))
              (Demo.alice (Some (Demo.now_sec + 3600)) (Some (VString Demo.app_audience)))
              (errorString "InvalidParameterException: Custom auth lambda trigger is not configured for the user pool."))
    as [_ H].
  - vm_compute. reflexivity.
  - vm_compute. reflexivity.
  - vm_compute. reflexivity.
  - apply (H "alice@example.com"). vm_compute. reflexivity.
Defined.

(** ** C8: the responses of the Google path *)

(** The Apple handler's error bodies have the shape; the predicate is not
    vacuous. *)
Example apple_error_body_is_error_shaped :
  error_shaped (Text (apple_error_body err_token_expired)) = true.
Proof. vm_compute. reflexivity. Qed.

(** C8, as stated, fails: a request whose body is not JSON is answered 400
    with the plain text "invalid request body", which does not open an
    object, let alone one with an [error] member. *)
Lemma C8_google_error_body_is_plain_text :
  is_Err (json_Unmarshal Demo.env "oops") = true
  /\ fst (loginWithGoogleHandler Demo.env "oops" Demo.s0)
     = Responded {| status := 400; body := Text "invalid request body" |}
  /\ error_shaped (Text "invalid request body") = false
  /\ opens_object "invalid request body" = false.
Proof. repeat split; vm_compute; reflexivity. Qed.

(** C8, amended: the Google handler answers a body that does not decode
    with 400 and the plain text "invalid request body"; a token that does
    not validate with 401 and "invalid google token: " followed by the
    validation error; an error of [InitiateAuth] (called with the validated
    token, its email and the provider name) with 401 and
    "cognito auth error: " followed by that error; and the tokens
    [InitiateAuth] returned with 200 and the object of the three members
    [access_token], [id_token], [refresh_token] holding them.  It gives no
    other response: every 200 is such an object after such an exchange,
    every other response is one of the three failures, and none of their
    texts opens a JSON object. *)
Theorem C8_google_responses (env : Env) (request : string) (s : State) :
  (forall e,
     json_Unmarshal env request = Err e ->
     fst (loginWithGoogleHandler env request s)
       = Responded {| status := 400; body := Text "invalid request body" |})
  /\ (forall id_token err,
        json_Unmarshal env request = Ok id_token ->
        idtoken_Validate env id_token (googleClientID (globals s)) = Err err ->
        fst (loginWithGoogleHandler env request s)
          = Responded {| status := 401;
                         body := Text ("invalid google token: " +:+ Error err) |})
  /\ (forall id_token payload email err,
        json_Unmarshal env request = Ok id_token ->
        idtoken_Validate env id_token (googleClientID (globals s)) = Ok payload ->
        idtoken.Claims payload !! "email" = Some (VString email) ->
        cognito_InitiateAuth env
          {| cognito.AuthFlow := "USER_SRP_AUTH";
            cognito.ClientId := clientID (globals s);
            cognito.AuthParameters :=
              <[ "IDENTITY_PROVIDER" := "Google" ]>
                (<[ "USERNAME" := email ]> {[ "ID_TOKEN" := id_token ]}) |} = Err err ->
        fst (loginWithGoogleHandler env request s)
          = Responded {| status := 401;
                         body := Text ("cognito auth error: " +:+ Error err) |})
  /\ (forall id_token payload email resp ar,
        json_Unmarshal env request = Ok id_token ->
        idtoken_Validate env id_token (googleClientID (globals s)) = Ok payload ->
        idtoken.Claims payload !! "email" = Some (VString email) ->
        cognito_InitiateAuth env
          {| cognito.AuthFlow := "USER_SRP_AUTH";
            cognito.ClientId := clientID (globals s);
            cognito.AuthParameters :=
              <[ "IDENTITY_PROVIDER" := "Google" ]>
                (<[ "USERNAME" := email ]> {[ "ID_TOKEN" := id_token ]}) |} = Ok resp ->
        cognito.AuthenticationResult resp = Some ar ->
        fst (loginWithGoogleHandler env request s)
          = Responded
              {| status := 200;
                 body := JSONObject
                   [("access_token", aws.ToString (cognito.AccessToken ar));
                    ("id_token", aws.ToString (cognito.IdToken ar));
                    ("refresh_token", aws.ToString (cognito.RefreshToken ar))] |})
  /\ (forall r,
        fst (loginWithGoogleHandler env request s) = Responded r ->
        (status r = 200
         /\ exists id_token payload email resp ar,
              json_Unmarshal env request = Ok id_token
              /\ idtoken_Validate env id_token (googleClientID (globals s)) = Ok payload
              /\ idtoken.Claims payload !! "email" = Some (VString email)
              /\ cognito_InitiateAuth env
                   {| cognito.AuthFlow := "USER_SRP_AUTH";
                     cognito.ClientId := clientID (globals s);
                     cognito.AuthParameters :=
                       <[ "IDENTITY_PROVIDER" := "Google" ]>
                         (<[ "USERNAME" := email ]> {[ "ID_TOKEN" := id_token ]}) |} = Ok resp
              /\ cognito.AuthenticationResult resp = Some ar
              /\ body r
                 = JSONObject
                     [("access_token", aws.ToString (cognito.AccessToken ar));
                      ("id_token", aws.ToString (cognito.IdToken ar));
                      ("refresh_token", aws.ToString (cognito.RefreshToken ar))])
        \/ (exists msg,
              body r = Text msg
              /\ opens_object msg = false
              /\ ((status r = 400
                   /\ is_Err (json_Unmarshal env request) = true
                   /\ msg = "invalid request body")
                  \/ (status r = 401
                      /\ exists id_token err,
                           json_Unmarshal env request = Ok id_token
                           /\ idtoken_Validate env id_token (googleClientID (globals s))
                              = Err err
                           /\ msg = "invalid google token: " +:+ Error err)
                  \/ (status r = 401
                      /\ exists id_token payload email err,
                           json_Unmarshal env request = Ok id_token
                           /\ idtoken_Validate env id_token (googleClientID (globals s))
                              = Ok payload
                           /\ idtoken.Claims payload !! "email" = Some (VString email)
                           /\ cognito_InitiateAuth env
                                {| cognito.AuthFlow := "USER_SRP_AUTH";
                                  cognito.ClientId := clientID (globals s);
                                  cognito.AuthParameters :=
                                    <[ "IDENTITY_PROVIDER" := "Google" ]>
                                      (<[ "USERNAME" := email ]> {[ "ID_TOKEN" := id_token ]}) |} = Err err
                           /\ msg = "cognito auth error: " +:+ Error err)))).
Proof.
  assert (forall v : option value, forall email,
            v = Some (VString email) <-> as_string v = Some email) as Hstr.
  { intros [[]|] email; simpl; split; intros H; by inversion H. }
  unfold loginWithGoogleHandler. run.
  split; [|split; [|split; [|split]]].
  - by intros e ->.
  - intros id_token err -> HV. simpl. by rewrite HV.
  - intros id_token payload email err -> HV HE HC. simpl. rewrite HV. simpl.
    apply Hstr in HE. rewrite HE. simpl. by rewrite HC.
  - intros id_token payload email resp ar -> HV HE HC HR. simpl. rewrite HV. simpl.
    apply Hstr in HE. rewrite HE. simpl. by rewrite HC, HR.
  - intros r.
    destruct (json_Unmarshal env request) as [id_token|e] eqn:EU; simpl.
    2:{ intros H. inversion H; subst r. simpl. right. eexists.
        split; [done|]. split; [done|]. by left. }
    destruct (idtoken_Validate env id_token (googleClientID (globals s)))
      as [payload|err] eqn:EV; simpl.
    2:{ intros H. inversion H; subst r. simpl. right. eexists.
        split; [done|]. split; [done|]. right. left. split; [done|].
        by exists id_token, err. }
    destruct (as_string (idtoken.Claims payload !! "email")) as [email|] eqn:EE;
      simpl; [|discriminate].
    apply Hstr in EE.
    destruct (cognito_InitiateAuth env _) as [resp|err] eqn:EC; simpl.
    2:{ intros H. inversion H; subst r. simpl. right. eexists.
        split; [done|]. split; [done|]. right. right. split; [done|].
        by exists id_token, payload, email, err. }
    destruct (cognito.AuthenticationResult resp) as [ar|] eqn:ER; simpl;
      [|discriminate].
    intros H. inversion H; subst r. simpl. left. split; [done|].
    by exists id_token, payload, email, resp, ar.
Qed.

Lemma C8_witness :
  fst (loginWithGoogleHandler Demo.env "oops" Demo.s0)
    = Responded {| status := 400; body := Text "invalid request body" |}
  /\ fst (loginWithGoogleHandler Demo.env (Demo.request "hs256") Demo.s0)
     = Responded
         {| status := 401;
            body := Text ("invalid google token: "
                            +:+ "idtoken: invalid token, token must have three segments") |}
  /\ fst (loginWithGoogleHandler Demo.env_no_cognito (Demo.request "google-bob") Demo.s0)
     = Responded
         {| status := 401;
            body := Text ("cognito auth error: "
                            +:+ "operation error: request send failed") |}
  /\ fst (loginWithGoogleHandler Demo.env (Demo.request "google-bob") Demo.s0)
     = Responded
         {| status := 200;
            body := JSONObject
              [("access_token", "cognito-access");
               ("id_token", "cognito-id");
               ("refresh_token", "cognito-refresh")] |}.
Proof.
  destruct (C8_google_responses Demo.env "oops" Demo.s0) as (H1 & _).
  destruct (C8_google_responses Demo.env (Demo.request "hs256") Demo.s0)
    as (_ & H2 & _).
  destruct (C8_google_responses Demo.env_no_cognito (Demo.request "google-bob") Demo.s0)
    as (_ & _ & H3 & _).
  destruct (C8_google_responses Demo.env (Demo.request "google-bob") Demo.s0)
    as (_ & _ & _ & H4 & _).
  split; [|split; [|split]].
  - apply (H1 (errorString "invalid character looking for beginning of value")).
    vm_compute. reflexivity.
  - apply (H2 "hs256"
             (errorString "idtoken: invalid token, token must have three segments")).
    + vm_compute. reflexivity.
    + vm_compute. reflexivity.
  - apply (H3 "google-bob"
             {| idtoken.Subject := "1122";
                idtoken.Claims := {[ "email" := VString "bob@example.com" ]} |}
             "bob@example.com" (errorString "operation error: request send failed")).
    + vm_compute. reflexivity.
    + vm_compute. reflexivity.
    + vm_compute. reflexivity.
    + reflexivity.
  - apply (H4 "google-bob"
             {| idtoken.Subject := "1122";
                idtoken.Claims := {[ "email" := VString "bob@example.com" ]} |}
             "bob@example.com"
             {| cognito.AuthenticationResult :=
                  Some {| cognito.AccessToken := Some "cognito-access";
                          cognito.IdToken := Some "cognito-id";
                          cognito.RefreshToken := Some "cognito-refresh" |} |}
             {| cognito.AccessToken := Some "cognito-access";
                cognito.IdToken := Some "cognito-id";
                cognito.RefreshToken := Some "cognito-refresh" |}).
    + vm_compute. reflexivity.
    + vm_compute. reflexivity.
    + vm_compute. reflexivity.
    + reflexivity.
    + reflexivity.
Defined.

(** ** C9: determinism *)

(** C9: the result of verification is a function of the token, the key set
    served, the clock and the expected audience (and of the libraries it
    calls): two runs that agree on these give the same result, whatever the
    state they start from and whatever the rest of the world answers.  A run
    leaves the globals and the environment as they were and adds only
    key-resolver events, the fetch and at most one lookup, to the log. *)
Theorem C9_verification_is_deterministic (env1 env2 : Env)
    (tokenString audience : string) (s1 s2 : State) :
  same_verification_inputs env1 env2 ->
  fst (verifyAppleIDToken env1 tokenString audience s1)
    = fst (verifyAppleIDToken env2 tokenString audience s2)
  /\ globals (snd (verifyAppleIDToken env1 tokenString audience s1)) = globals s1
  /\ environ (snd (verifyAppleIDToken env1 tokenString audience s1)) = environ s1
  /\ Forall (fun e => is_key_event e = true)
       (new_events s1 (snd (verifyAppleIDToken env1 tokenString audience s1))).
Proof.
  intros (HF & HN & HP & HC & HV & HI & HS).
  split.
  - rewrite (verifyAppleIDToken_pure env1), (verifyAppleIDToken_pure env2).
    unfold verify_result, parse_result, jwt_Parse, keyFunc, check_claims,
      exp_is_past, err_unexpected_signing_method, Sprint_v.
    by rewrite HF, HN, HP, HC, HV, HI, HS.
  - destruct (verifyAppleIDToken_state env1 tokenString audience s1)
      as (HG & HE & [H|[k H]]); (split; [done|]); (split; [done|]);
      rewrite (new_events_app _ _ _ H); by repeat constructor.
Qed.

Lemma C9_witness :
  fst (verifyAppleIDToken Demo.env "good" Demo.app_audience Demo.s0)
    = fst (verifyAppleIDToken Demo.env_no_cognito "good" Demo.app_audience Demo.s1)
  /\ globals (snd (verifyAppleIDToken Demo.env "good" Demo.app_audience Demo.s0))
     = globals Demo.s0
  /\ environ (snd (verifyAppleIDToken Demo.env "good" Demo.app_audience Demo.s0))
     = environ Demo.s0
  /\ Forall (fun e => is_key_event e = true)
       (new_events Demo.s0
          (snd (verifyAppleIDToken Demo.env "good" Demo.app_audience Demo.s0))).
Proof.
  apply (C9_verification_is_deterministic Demo.env Demo.env_no_cognito "good"
           Demo.app_audience Demo.s0 Demo.s1).
  repeat split; reflexivity.
Defined.

(** ** C10: the unchecked assertion on the Google path *)

(** C10: when the Google token validates and its payload has no [email]
    claim of string type, the handler panics at the type assertion, before
    the exchange, and writes no response; so whenever the handler answers a
    validated token, the payload carried a string [email]. *)
Theorem C10_google_panics_without_string_email (env : Env) (body id_token : string)
    (s : State) (payload : idtoken.Payload) :
  json_Unmarshal env body = Ok id_token ->
  idtoken_Validate env id_token (googleClientID (globals s)) = Ok payload ->
  (as_string (idtoken.Claims payload !! "email") = None ->
   loginWithGoogleHandler env body s
     = (Panicked interface_conversion,
        push (EvIdtokenValidate (googleClientID (globals s))) s))
  /\ (forall r,
        fst (loginWithGoogleHandler env body s) = Responded r ->
        exists email, idtoken.Claims payload !! "email" = Some (VString email)).
Proof.
  intros HU HV. unfold loginWithGoogleHandler. rewrite HU. run. rewrite HV. simpl.
  split.
  - by intros ->.
  - intros r. unfold as_string.
    destruct (idtoken.Claims payload !! "email") as [[]|]; simpl;
      try discriminate.
    intros _. by eexists.
Qed.

Lemma C10_witness :
  loginWithGoogleHandler Demo.env (Demo.request "google-no-email") Demo.s0
    = (Panicked interface_conversion,
       push (EvIdtokenValidate Demo.google_audience) Demo.s0).
Proof.
  destruct (C10_google_panics_without_string_email Demo.env
              (Demo.request "google-no-email") "google-no-email" Demo.s0
              {| idtoken.Subject := "3344"; idtoken.Claims := ∅ |}) as [H _].
  - vm_compute. reflexivity.
  - vm_compute. reflexivity.
  - apply H. reflexivity.
Defined.

(** * Further properties of main.go *)

(** ** What a successful verification means *)

Lemma LookupKeyID_Some (set : jwk.Set_) (kid : string) (k : jwk.Key) :
  jwk.LookupKeyID set kid = Some k -> k ∈ set /\ jwk.KeyID k = kid.
Proof.
  unfold jwk.LookupKeyID. intros H. apply find_some in H as [Hin Hk].
  split; [by apply list_elem_of_In|]. by apply bool_decide_eq_true in Hk.
Qed.

(** The key function returns a key only after the method check, for a
    string [kid], from a key of the set whose [Raw] succeeded; it has then
    logged the lookup. *)
Lemma keyFunc_Ok_inv (env : Env) (set : jwk.Set_) (t : jwt.Token) (s s' : State)
    (pub : jwk.PublicKey) :
  keyFunc env set t s = (Ok pub, s') ->
  jwt.is_ECDSA (jwt.Method t) = true
  /\ exists keyID k,
       jwt.Header t !! "kid" = Some (VString keyID)
       /\ jwk.LookupKeyID set keyID = Some k
       /\ jwk.Raw k = Ok pub
       /\ s' = push (EvLookupKeyID keyID) s.
Proof.
  unfold keyFunc. run.
  destruct (jwt.is_ECDSA (jwt.Method t)); simpl; [|discriminate].
  unfold as_string.
  destruct (jwt.Header t !! "kid") as [[| | |keyID| |]|]; try discriminate.
  destruct (jwk.LookupKeyID set keyID) as [k|] eqn:EL; [|discriminate].
  destruct (jwk.Raw k) as [pub'|e] eqn:ER; [|discriminate].
  intros H. inversion H; subst. split; [done|]. by exists keyID, k.
Qed.

(** X1: when verification returns claims, the key set was fetched, the
    token decoded and the claims are the decoded ones; its method is an
    ECDSA method, its header names a [kid] as a string, a key of the fetched
    set has that [kid] and the signature verified under it; [exp] is not
    past and [aud], if a string, is the expected audience; the call made
    one fetch and one lookup, in this order, and nothing else. *)
Theorem X1_verified_means_signed_by_a_fetched_key (env : Env)
    (tokenString audience : string) (s s1 : State) (claims : MapClaims) :
  verifyAppleIDToken env tokenString audience s = (Ok claims, s1) ->
  exists set tok ss keyID k pub,
    jwk_Fetch env apple_keys_url = Ok set
    /\ jwt_ParseUnverified env tokenString = Ok (tok, ss)
    /\ claims = jwt.Claims tok
    /\ jwt.is_ECDSA (jwt.Method tok) = true
    /\ jwt.Header tok !! "kid" = Some (VString keyID)
    /\ k ∈ set /\ jwk.KeyID k = keyID /\ jwk.Raw k = Ok pub
    /\ jwt_Method_Verify env (jwt.Method tok) ss (jwt.Signature tok) pub = None
    /\ exp_is_past env claims = false
    /\ (forall aud, claims !! "aud" = Some (VString aud) -> aud = audience)
    /\ s1 = push (EvLookupKeyID keyID) (push (EvFetch apple_keys_url) s).
Proof.
  rewrite verifyAppleIDToken_run.
  destruct (jwk_Fetch env apple_keys_url) as [set|e] eqn:EF; [|discriminate].
  destruct (jwt_Parse env tokenString (keyFunc env set) _) as [[token|e] s2] eqn:EP;
    [|discriminate].
  intros H. inversion H as [[Hc Hs]]. subst s2.
  apply jwt_Parse_Ok_inv in EP as (tok & ss & pub & HP & HK & -> & HV).
  apply keyFunc_Ok_inv in HK as (HM & keyID & k & Hkid & HL & HR & ->).
  apply LookupKeyID_Some in HL as [Hin Hid].
  unfold check_claims in Hc. simpl in Hc.
  destruct (exp_is_past env (jwt.Claims tok)) eqn:EE; [discriminate|].
  destruct (aud_mismatch (jwt.Claims tok) audience) as [a|] eqn:EA; [discriminate|].
  inversion Hc; subst claims.
  exists set, tok, ss, keyID, k, pub. repeat (split; [done|]).
  split; [|done].
  intros aud Haud. unfold aud_mismatch in EA. rewrite Haud in EA. simpl in EA.
  destruct (decide (aud = audience)) as [|Hne]; [done|].
  by rewrite bool_decide_eq_true_2 in EA.
Qed.

Lemma X1_witness :
  exists set tok ss keyID k pub,
    jwk_Fetch Demo.env apple_keys_url = Ok set
    /\ jwt_ParseUnverified Demo.env "good" = Ok (tok, ss)
    /\ Demo.alice (Some (Demo.now_sec + 3600)) (Some (VString Demo.app_audience))
       = jwt.Claims tok
    /\ jwt.is_ECDSA (jwt.Method tok) = true
    /\ jwt.Header tok !! "kid" = Some (VString keyID)
    /\ k ∈ set /\ jwk.KeyID k = keyID /\ jwk.Raw k = Ok pub
    /\ jwt_Method_Verify Demo.env (jwt.Method tok) ss (jwt.Signature tok) pub = None
    /\ exp_is_past Demo.env
         (Demo.alice (Some (Demo.now_sec + 3600)) (Some (VString Demo.app_audience)))
       = false
    /\ (forall aud,
          Demo.alice (Some (Demo.now_sec + 3600)) (Some (VString Demo.app_audience))
            !! "aud" = Some (VString aud) -> aud = Demo.app_audience)
    /\ push (EvLookupKeyID "W6WcOKB") (push (EvFetch apple_keys_url) Demo.s0)
       = push (EvLookupKeyID keyID) (push (EvFetch apple_keys_url) Demo.s0).
Proof.
  apply (X1_verified_means_signed_by_a_fetched_key Demo.env "good" Demo.app_audience
           Demo.s0).
  vm_compute. reflexivity.
Defined.

(** X2: a token that decodes with an ECDSA method and a string [kid], whose
    key is in the fetched set and has a public key, that passes the
    library's claim validation and signature check, is not expired and has
    no mismatching [aud], verifies: the result is its claims, after one
    fetch and one lookup. *)
Theorem X2_well_formed_token_verifies (env : Env) (tokenString audience : string)
    (s : State) (set : jwk.Set_) (tok : jwt.Token) (ss keyID : string)
    (k : jwk.Key) (pub : jwk.PublicKey) :
  jwk_Fetch env apple_keys_url = Ok set ->
  jwt_ParseUnverified env tokenString = Ok (tok, ss) ->
  jwt.is_ECDSA (jwt.Method tok) = true ->
  jwt.Header tok !! "kid" = Some (VString keyID) ->
  jwk.LookupKeyID set keyID = Some k ->
  jwk.Raw k = Ok pub ->
  jwt_Claims_Valid env (jwt.Claims tok) = None ->
  jwt_Method_Verify env (jwt.Method tok) ss (jwt.Signature tok) pub = None ->
  exp_is_past env (jwt.Claims tok) = false ->
  aud_mismatch (jwt.Claims tok) audience = None ->
  verifyAppleIDToken env tokenString audience s
    = (Ok (jwt.Claims tok),
       push (EvLookupKeyID keyID) (push (EvFetch apple_keys_url) s)).
Proof.
  intros HF HP HM HK HL HR HC HV HE HA.
  rewrite verifyAppleIDToken_run, HF.
  unfold jwt_Parse. rewrite HP. unfold bind.
  rewrite (keyFunc_lookup env set tok _ keyID HM HK), HL, HR, HC, HV. simpl.
  unfold check_claims. simpl. by rewrite HE, HA.
Qed.

Lemma X2_witness :
  verifyAppleIDToken Demo.env "good" Demo.app_audience Demo.s1
    = (Ok (Demo.alice (Some (Demo.now_sec + 3600)) (Some (VString Demo.app_audience))),
       push (EvLookupKeyID "W6WcOKB") (push (EvFetch apple_keys_url) Demo.s1)).
Proof.
  apply (X2_well_formed_token_verifies Demo.env "good" Demo.app_audience Demo.s1
           Demo.apple_set
           (Demo.mk_token "good" Demo.es256 "ES256" "W6WcOKB"
              (Demo.alice (Some (Demo.now_sec + 3600))
                 (Some (VString Demo.app_audience)))
              (Demo.signed_by "P-256 public key W6WcOKB"))
           "good" "W6WcOKB"
           {| jwk.KeyID := "W6WcOKB"; jwk.Raw := Ok "P-256 public key W6WcOKB" |}
           "P-256 public key W6WcOKB");
    vm_compute; reflexivity.
Defined.

(** ** Failures inside the key function *)

(** X3: a token with an ECDSA method whose header has no [kid], or a [kid]
    that is not a string, fails with "missing kid header in token" and no
    key is looked up. *)
Theorem X3_missing_kid (env : Env) (tokenString audience : string) (s : State)
    (set : jwk.Set_) (tok : jwt.Token) (ss : string) :
  jwk_Fetch env apple_keys_url = Ok set ->
  jwt_ParseUnverified env tokenString = Ok (tok, ss) ->
  jwt.is_ECDSA (jwt.Method tok) = true ->
  as_string (jwt.Header tok !! "kid") = None ->
  verifyAppleIDToken env tokenString audience s
    = (Err (err_validation_failed
              (ValidationError (Some err_missing_kid)
                 jwt.ValidationErrorUnverifiable EmptyString)),
       push (EvFetch apple_keys_url) s)
  /\ Error (err_validation_failed
              (ValidationError (Some err_missing_kid)
                 jwt.ValidationErrorUnverifiable EmptyString))
     = "apple token validation failed: missing kid header in token".
Proof.
  intros HF HP HM HK. split; [|done].
  rewrite verifyAppleIDToken_run, HF.
  rewrite (jwt_Parse_keyFunc_errorString env tokenString (keyFunc env set) _
             (push (EvFetch apple_keys_url) s) tok ss
             "missing kid header in token" HP); [done|].
  unfold keyFunc. by rewrite HM, HK.
Qed.

Lemma X3_witness :
  verifyAppleIDToken Cases.env "no-kid" Demo.app_audience Demo.s0
    = (Err (err_validation_failed
              (ValidationError (Some err_missing_kid)
                 jwt.ValidationErrorUnverifiable EmptyString)),
       push (EvFetch apple_keys_url) Demo.s0)
  /\ Error (err_validation_failed
              (ValidationError (Some err_missing_kid)
                 jwt.ValidationErrorUnverifiable EmptyString))
     = "apple token validation failed: missing kid header in token".
Proof.
  apply (X3_missing_kid Cases.env "no-kid" Demo.app_audience Demo.s0 Cases.key_set
           {| jwt.Raw := "no-kid"; jwt.Method := Demo.es256;
              jwt.Header := {[ "alg" := VString "ES256" ]};
              jwt.Claims := Demo.alice (Some (Demo.now_sec + 3600))
                              (Some (VString Demo.app_audience));
              jwt.Signature := Demo.signed_by "P-256 public key W6WcOKB";
              jwt.Valid := false |}
           "no-kid");
    vm_compute; reflexivity.
Defined.

(** X4: whatever error the key function returns (wrong method, missing
    [kid], no matching key, a key that has no public key), verification
    fails in the state the key function left, and the message is
    "apple token validation failed: " followed by that error's message. *)
Theorem X4_key_function_error_surfaces (env : Env) (tokenString audience : string)
    (s s1 : State) (set : jwk.Set_) (tok : jwt.Token) (ss : string) (e : error) :
  jwk_Fetch env apple_keys_url = Ok set ->
  jwt_ParseUnverified env tokenString = Ok (tok, ss) ->
  keyFunc env set tok (push (EvFetch apple_keys_url) s) = (Err e, s1) ->
  exists err,
    verifyAppleIDToken env tokenString audience s = (Err err, s1)
    /\ Error err = "apple token validation failed: " +:+ Error e.
Proof.
  intros HF HP HK. rewrite verifyAppleIDToken_run, HF.
  unfold jwt_Parse. rewrite HP. unfold bind. rewrite HK.
  destruct e; simpl; by eexists.
Qed.

Lemma X4_witness :
  exists err,
    verifyAppleIDToken Cases.env "broken-key" Demo.app_audience Demo.s0
      = (Err err, push (EvLookupKeyID "Sf2lFqw") (push (EvFetch apple_keys_url) Demo.s0))
    /\ Error err
       = "apple token validation failed: " +:+ Error (errorString "jwk: unsupported key type").
Proof.
  apply (X4_key_function_error_surfaces Cases.env "broken-key" Demo.app_audience
           Demo.s0 _ Cases.key_set
           (Demo.mk_token "broken-key" Demo.es256 "ES256" "Sf2lFqw"
              (Demo.alice (Some (Demo.now_sec + 3600))
                 (Some (VString Demo.app_audience)))
              (Demo.signed_by "P-256 public key Sf2lFqw"))
           "broken-key");
    vm_compute; reflexivity.
Defined.

(** ** The handlers on their failure paths *)

(** X5: when Apple's key endpoint cannot be fetched, every request whose
    body decodes is answered 401, with the fetch error inside the
    "apple token verification failed" text, whatever the token; the token is
    not parsed, no key is looked up and Cognito is not called. *)
Theorem X5_unreachable_key_endpoint_gives_401 (env : Env) (request id_token : string)
    (s : State) (e : error) :
  json_Unmarshal env request = Ok id_token ->
  jwk_Fetch env apple_keys_url = Err e ->
  loginWithAppleHandler env request s
    = (Responded
         {| status := 401;
            body := Text ("{" +:+ dq +:+ "error" +:+ dq +:+ ": " +:+ dq
                            +:+ "apple token verification failed: "
                            +:+ "failed to fetch Apple JWKs: " +:+ Error e
                            +:+ dq +:+ "}") |},
       push (EvFetch apple_keys_url) s).
Proof.
  intros HU HF.
  rewrite (loginWithAppleHandler_unverified env request id_token s
             (push (EvFetch apple_keys_url) s)
             (Errorf_w "failed to fetch Apple JWKs: " e) HU); [done|].
  by rewrite verifyAppleIDToken_run, HF.
Qed.

Lemma X5_witness :
  loginWithAppleHandler Demo.env_down (Demo.request "good") Demo.s0
    = (Responded
         {| status := 401;
            body := Text ("{" +:+ dq +:+ "error" +:+ dq +:+ ": " +:+ dq
                            +:+ "apple token verification failed: "
                            +:+ "failed to fetch Apple JWKs: "
                            +:+ "failed to fetch: connection refused"
                            +:+ dq +:+ "}") |},
       push (EvFetch apple_keys_url) Demo.s0).
Proof.
  apply (X5_unreachable_key_endpoint_gives_401 Demo.env_down (Demo.request "good")
           "good" Demo.s0 (errorString "failed to fetch: connection refused")).
  - vm_compute. reflexivity.
  - reflexivity.
Defined.

(** X6: a request body that does not decode is answered 400 by both
    handlers, the Apple one with an [error] object and the Google one with
    plain text, and the state is left as it was: nothing is fetched,
    validated or exchanged. *)
Theorem X6_undecodable_body_gives_400 (env : Env) (request : string) (s : State)
    (e : error) :
  json_Unmarshal env request = Err e ->
  loginWithAppleHandler env request s
    = (Responded
         {| status := 400;
            body := Text ("{" +:+ dq +:+ "error" +:+ dq +:+ ": " +:+ dq
                            +:+ "invalid request body" +:+ dq +:+ "}") |}, s)
  /\ loginWithGoogleHandler env request s
     = (Responded {| status := 400; body := Text "invalid request body" |}, s).
Proof.
  intros HU. unfold loginWithAppleHandler, loginWithGoogleHandler. by rewrite HU.
Qed.

Lemma X6_witness :
  loginWithAppleHandler Demo.env "oops" Demo.s1
    = (Responded
         {| status := 400;
            body := Text ("{" +:+ dq +:+ "error" +:+ dq +:+ ": " +:+ dq
                            +:+ "invalid request body" +:+ dq +:+ "}") |}, Demo.s1)
  /\ loginWithGoogleHandler Demo.env "oops" Demo.s1
     = (Responded {| status := 400; body := Text "invalid request body" |}, Demo.s1).
Proof.
  apply (X6_undecodable_body_gives_400 Demo.env "oops" Demo.s1
           (errorString "invalid character looking for beginning of value")).
  vm_compute. reflexivity.
Defined.

(** ** What a request does to the state *)

Lemma verifyAppleIDToken_Ok_events (env : Env) (tokenString audience : string)
    (s s1 : State) (claims : MapClaims) :
  verifyAppleIDToken env tokenString audience s = (Ok claims, s1) ->
  exists keyID, s1 = push (EvLookupKeyID keyID) (push (EvFetch apple_keys_url) s).
Proof.
  rewrite verifyAppleIDToken_run.
  destruct (jwk_Fetch env apple_keys_url) as [set|e]; [|discriminate].
  destruct (jwt_Parse env tokenString (keyFunc env set) _) as [[token|e] s2] eqn:EP;
    [|discriminate].
  intros H. inversion H; subst s2.
  apply jwt_Parse_Ok_inv in EP as (tok & ss & pub & _ & HK & _).
  apply keyFunc_Ok_inv in HK as (_ & keyID & k & _ & _ & _ & ->). by exists keyID.
Qed.

Lemma loginWithGoogleHandler_verified (env : Env) (request id_token : string)
    (s : State) (payload : idtoken.Payload) (email : string) :
  json_Unmarshal env request = Ok id_token ->
  idtoken_Validate env id_token (googleClientID (globals s)) = Ok payload ->
  idtoken.Claims payload !! "email" = Some (VString email) ->
  let input :=
    {| cognito.AuthFlow := "USER_SRP_AUTH";
       cognito.ClientId := clientID (globals s);
       cognito.AuthParameters :=
         <[ "IDENTITY_PROVIDER" := "Google" ]>
           (<[ "USERNAME" := email ]> {[ "ID_TOKEN" := id_token ]}) |} in
  loginWithGoogleHandler env request s =
    (match cognito_InitiateAuth env input with
     | Err err =>
         Responded (http_Error ("cognito auth error: " +:+ Error err)
                      StatusUnauthorized)
     | Ok resp =>
         match cognito.AuthenticationResult resp with
         | None => Panicked nil_dereference
         | Some ar =>
             Responded (json_Encode
               [("access_token", aws.ToString (cognito.AccessToken ar));
                ("id_token", aws.ToString (cognito.IdToken ar));
                ("refresh_token", aws.ToString (cognito.RefreshToken ar))])
         end
     end,
     push (EvInitiateAuth input)
       (push (EvIdtokenValidate (googleClientID (globals s))) s)).
Proof.
  intros HU HV HE. cbv zeta. unfold loginWithGoogleHandler. rewrite HU. run.
  rewrite HV. simpl. rewrite HE. simpl.
  destruct (cognito_InitiateAuth env _) as [resp|e]; [|done].
  by destruct (cognito.AuthenticationResult resp).
Qed.

(** X7: a request to the Apple handler leaves the globals and the
    environment as they were and only adds to the log.  What it adds is
    nothing (the body did not decode), the fetch, the fetch and one key
    lookup, or these two followed by the print of the verified email and
    one call of [InitiateAuth]: at most one fetch and at most one exchange
    per request, the exchange last, and never a Google validation. *)
Theorem X7_apple_request_trace (env : Env) (request : string) (s : State) :
  globals (snd (loginWithAppleHandler env request s)) = globals s
  /\ environ (snd (loginWithAppleHandler env request s)) = environ s
  /\ exists new,
       events (snd (loginWithAppleHandler env request s)) = events s ++ new
       /\ (new = []
           \/ new = [EvFetch apple_keys_url]
           \/ (exists keyID, new = [EvFetch apple_keys_url; EvLookupKeyID keyID])
           \/ (exists keyID email input,
                 new = [EvFetch apple_keys_url; EvLookupKeyID keyID;
                        EvPrintf email; EvInitiateAuth input])).
Proof.
  destruct (json_Unmarshal env request) as [id_token|e] eqn:HU.
  2:{ unfold loginWithAppleHandler. rewrite HU. simpl.
      split; [done|]. split; [done|]. exists []. split; [by rewrite app_nil_r|].
      by left. }
  destruct (verifyAppleIDToken env id_token
              (default EmptyString (environ s !! "APPLE_CLIENT_ID")) s)
    as [[claims|err] s1] eqn:HV.
  - rewrite (loginWithAppleHandler_verified env request id_token s s1 claims HU HV).
    apply verifyAppleIDToken_Ok_events in HV as [keyID ->]. simpl.
    split; [done|]. split; [done|]. eexists. split.
    + rewrite <- !app_assoc. simpl. reflexivity.
    + right. right. right. by eexists _, _, _.
  - rewrite (loginWithAppleHandler_unverified env request id_token s s1 err HU HV).
    simpl.
    pose proof (verifyAppleIDToken_state env id_token
                  (default EmptyString (environ s !! "APPLE_CLIENT_ID")) s)
      as (HG & HE & He).
    rewrite HV in HG, HE, He. simpl in *.
    split; [done|]. split; [done|].
    destruct He as [He|[k He]]; eexists; (split; [exact He|]).
    + right. by left.
    + right. right. left. by eexists.
Qed.

(** X8: a request to the Google handler leaves the globals and the
    environment as they were and only adds to the log: nothing (the body
    did not decode), the validation against the configured Google client
    id, or the validation followed by one call of [InitiateAuth]; it
    never fetches or looks up an Apple key. *)
Theorem X8_google_request_trace (env : Env) (request : string) (s : State) :
  globals (snd (loginWithGoogleHandler env request s)) = globals s
  /\ environ (snd (loginWithGoogleHandler env request s)) = environ s
  /\ exists new,
       events (snd (loginWithGoogleHandler env request s)) = events s ++ new
       /\ (new = []
           \/ new = [EvIdtokenValidate (googleClientID (globals s))]
           \/ (exists input,
                 new = [EvIdtokenValidate (googleClientID (globals s));
                        EvInitiateAuth input])).
Proof.
  unfold loginWithGoogleHandler. run.
  destruct (json_Unmarshal env request) as [id_token|e]; simpl.
  2:{ split; [done|]. split; [done|]. exists []. split; [by rewrite app_nil_r|].
      by left. }
  destruct (idtoken_Validate env id_token (googleClientID (globals s)))
    as [payload|e]; simpl.
  2:{ split; [done|]. split; [done|]. eexists. split; [done|]. right. by left. }
  destruct (as_string (idtoken.Claims payload !! "email")) as [email|]; simpl.
  2:{ split; [done|]. split; [done|]. eexists. split; [done|]. right. by left. }
  match goal with
  | |- context [cognito_InitiateAuth env ?i] =>
      destruct (cognito_InitiateAuth env i) as [resp|e]
  end; simpl.
  2:{ split; [done|]. split; [done|]. eexists.
      split; [by rewrite <- app_assoc|]. right. right. by eexists. }
  destruct (cognito.AuthenticationResult resp); simpl;
    (split; [done|]); (split; [done|]); eexists;
    (split; [by rewrite <- app_assoc|]); right; right; by eexists.
Qed.

(** ** Edge cases after verification *)

(** X9: an Apple token that verifies but has no [email] claim is not an
    error: the handler prints and sends to Cognito the text "<nil>" as the
    user name, and, when the exchange fails, answers 200 with
    "Apple login verified for <nil> (Cognito not configured)". *)
Theorem X9_apple_token_without_email (env : Env) (request id_token : string)
    (s s1 : State) (claims : MapClaims) :
  json_Unmarshal env request = Ok id_token ->
  verifyAppleIDToken env id_token (default EmptyString (environ s !! "APPLE_CLIENT_ID")) s
    = (Ok claims, s1) ->
  claims !! "email" = None ->
  snd (loginWithAppleHandler env request s)
    = push (EvInitiateAuth
              {| cognito.AuthFlow := "CUSTOM_AUTH";
                 cognito.ClientId := clientIDApple (globals s);
                 cognito.AuthParameters := {[ "USERNAME" := "<nil>" ]} |})
        (push (EvPrintf "<nil>") s1)
  /\ (forall err,
        cognito_InitiateAuth env
          {| cognito.AuthFlow := "CUSTOM_AUTH";
             cognito.ClientId := clientIDApple (globals s);
             cognito.AuthParameters := {[ "USERNAME" := "<nil>" ]} |} = Err err ->
        fst (loginWithAppleHandler env request s)
          = Responded
              {| status := 200;
                 body := JSONObject
                   [("message",
                     "Apple login verified for <nil> (Cognito not configured)")] |}).
Proof.
  intros HU HV HE.
  assert (globals s1 = globals s) as HG.
  { pose proof (verifyAppleIDToken_state env id_token
                  (default EmptyString (environ s !! "APPLE_CLIENT_ID")) s) as (H & _).
    by rewrite HV in H. }
  rewrite (loginWithAppleHandler_verified env request id_token s s1 claims HU HV).
  rewrite HE, HG. simpl. split; [done|].
  intros err HC. by rewrite HC.
Qed.

Lemma X9_witness :
  snd (loginWithAppleHandler Cases.env (Demo.request "no-email") Demo.s0)
    = push (EvInitiateAuth
              {| cognito.AuthFlow := "CUSTOM_AUTH";
                 cognito.ClientId := clientIDApple (globals Demo.s0);
                 cognito.AuthParameters := {[ "USERNAME" := "<nil>" ]} |})
        (push (EvPrintf "<nil>")
           (push (EvLookupKeyID "W6WcOKB") (push (EvFetch apple_keys_url) Demo.s0)))
  /\ fst (loginWithAppleHandler Cases.env (Demo.request "no-email") Demo.s0)
     = Responded
         {| status := 200;
            body := JSONObject
              [("message",
                "Apple login verified for <nil> (Cognito not configured)")] |}.
Proof.
  destruct (X9_apple_token_without_email Cases.env (Demo.request "no-email")
              "no-email" Demo.s0
              (push (EvLookupKeyID "W6WcOKB") (push (EvFetch apple_keys_url) Demo.s0))
              Cases.anonymous) as [H1 H2].
  - vm_compute. reflexivity.
  - vm_compute. reflexivity.
  - vm_compute. reflexivity.
  - split; [exact H1|].
    apply (H2 (errorString "operation error: request send failed")). reflexivity.
Defined.

(** X10: when [InitiateAuth] returns without error but with no
    [AuthenticationResult] (Cognito answered with a challenge), both
    handlers panic on the nil pointer after the exchange was made, and
    write no response. *)
Theorem X10_challenge_answer_panics (env : Env) (request id_token : string)
    (s : State) :
  json_Unmarshal env request = Ok id_token ->
  (forall claims s1 resp,
     verifyAppleIDToken env id_token
       (default EmptyString (environ s !! "APPLE_CLIENT_ID")) s = (Ok claims, s1) ->
     cognito_InitiateAuth env
       {| cognito.AuthFlow := "CUSTOM_AUTH";
          cognito.ClientId := clientIDApple (globals s1);
          cognito.AuthParameters :=
            {[ "USERNAME" := Sprint_v env (claims !! "email") ]} |} = Ok resp ->
     cognito.AuthenticationResult resp = None ->
     fst (loginWithAppleHandler env request s) = Panicked nil_dereference
     /\ List.filter is_exchange
          (new_events s (snd (loginWithAppleHandler env request s))) <> [])
  /\ (forall payload email resp,
        idtoken_Validate env id_token (googleClientID (globals s)) = Ok payload ->
        idtoken.Claims payload !! "email" = Some (VString email) ->
        cognito_InitiateAuth env
          {| cognito.AuthFlow := "USER_SRP_AUTH";
             cognito.ClientId := clientID (globals s);
             cognito.AuthParameters :=
               <[ "IDENTITY_PROVIDER" := "Google" ]>
                 (<[ "USERNAME" := email ]> {[ "ID_TOKEN" := id_token ]}) |} = Ok resp ->
        cognito.AuthenticationResult resp = None ->
        fst (loginWithGoogleHandler env request s) = Panicked nil_dereference
        /\ List.filter is_exchange
             (new_events s (snd (loginWithGoogleHandler env request s))) <> []).
Proof.
  intros HU. split.
  - intros claims s1 resp HV HC HR.
    pose proof (loginWithAppleHandler_verified env request id_token s s1 claims HU HV)
      as H. cbv zeta in H. rewrite HC, HR in H. rewrite H. simpl.
    split; [done|].
    apply verifyAppleIDToken_Ok_events in HV as [keyID ->].
    erewrite new_events_app; [|simpl; rewrite <- !app_assoc; simpl; reflexivity].
    simpl. discriminate.
  - intros payload email resp HV HE HC HR.
    pose proof (loginWithGoogleHandler_verified env request id_token s payload email
                  HU HV HE) as H.
    cbv zeta in H. rewrite HC, HR in H. rewrite H. simpl.
    split; [done|].
    erewrite new_events_app; [|simpl; rewrite <- !app_assoc; simpl; reflexivity].
    simpl. discriminate.
Qed.

Lemma X10_witness :
  (fst (loginWithAppleHandler Cases.env_challenge (Demo.request "good") Demo.s0)
     = Panicked nil_dereference
   /\ List.filter is_exchange
        (new_events Demo.s0
           (snd (loginWithAppleHandler Cases.env_challenge (Demo.request "good") Demo.s0)))
      <> [])
  /\ (fst (loginWithGoogleHandler Cases.env_challenge (Demo.request "google-bob") Demo.s0)
        = Panicked nil_dereference
      /\ List.filter is_exchange
           (new_events Demo.s0
              (snd (loginWithGoogleHandler Cases.env_challenge
                      (Demo.request "google-bob") Demo.s0)))
         <> []).
Proof.
  destruct (X10_challenge_answer_panics Cases.env_challenge (Demo.request "good")
              "good" Demo.s0) as [HA _]; [vm_compute; reflexivity|].
  destruct (X10_challenge_answer_panics Cases.env_challenge (Demo.request "google-bob")
              "google-bob" Demo.s0) as [_ HG]; [vm_compute; reflexivity|].
  split.
  - apply (HA (Demo.alice (Some (Demo.now_sec + 3600)) (Some (VString Demo.app_audience)))
              (push (EvLookupKeyID "W6WcOKB") (push (EvFetch apple_keys_url) Demo.s0))
              {| cognito.AuthenticationResult := None |}).
    + vm_compute. reflexivity.
    + reflexivity.
    + reflexivity.
  - apply (HG {| idtoken.Subject := "1122";
                 idtoken.Claims := {[ "email" := VString "bob@example.com" ]} |}
              "bob@example.com" {| cognito.AuthenticationResult := None |}).
    + vm_compute. reflexivity.
    + vm_compute. reflexivity.
    + reflexivity.
    + reflexivity.
Defined.

(** X11: on a successful exchange the Apple handler answers 200 with the
    object of the tokens Cognito gave that are not empty, in the order
    access, id, refresh: a member is in it exactly when it is one of the
    three tokens under its name and is not empty.  So there is never a
    [message] nor an empty value; the object has the three-token shape
    exactly when all three are non-empty, and is the empty object exactly
    when none is (the Google handler always writes the three members). *)
Theorem X11_apple_success_omits_empty_tokens (env : Env) (request id_token : string)
    (s s1 : State) (claims : MapClaims) (resp : cognito.InitiateAuthOutput)
    (ar : cognito.AuthenticationResultType) :
  json_Unmarshal env request = Ok id_token ->
  verifyAppleIDToken env id_token (default EmptyString (environ s !! "APPLE_CLIENT_ID")) s
    = (Ok claims, s1) ->
  cognito_InitiateAuth env
    {| cognito.AuthFlow := "CUSTOM_AUTH";
       cognito.ClientId := clientIDApple (globals s1);
       cognito.AuthParameters := {[ "USERNAME" := Sprint_v env (claims !! "email") ]} |}
    = Ok resp ->
  cognito.AuthenticationResult resp = Some ar ->
  exists members,
    fst (loginWithAppleHandler env request s)
      = Responded {| status := 200; body := JSONObject members |}
    /\ members
       = List.filter (fun kv => negb (bool_decide (snd kv = EmptyString)))
           [("access_token", aws.ToString (cognito.AccessToken ar));
            ("id_token", aws.ToString (cognito.IdToken ar));
            ("refresh_token", aws.ToString (cognito.RefreshToken ar))]
    /\ (forall name v,
          (name, v) ∈ members
          <-> v <> EmptyString
              /\ ((name = "access_token" /\ v = aws.ToString (cognito.AccessToken ar))
                  \/ (name = "id_token" /\ v = aws.ToString (cognito.IdToken ar))
                  \/ (name = "refresh_token"
                      /\ v = aws.ToString (cognito.RefreshToken ar))))
    /\ Forall (fun kv => snd kv <> EmptyString) members
    /\ ("message" ∉ (fst <$> members))
    /\ (tokens_shaped (JSONObject members) = true
        <-> aws.ToString (cognito.AccessToken ar) <> EmptyString
            /\ aws.ToString (cognito.IdToken ar) <> EmptyString
            /\ aws.ToString (cognito.RefreshToken ar) <> EmptyString)
    /\ (members = []
        <-> aws.ToString (cognito.AccessToken ar) = EmptyString
            /\ aws.ToString (cognito.IdToken ar) = EmptyString
            /\ aws.ToString (cognito.RefreshToken ar) = EmptyString).
Proof.
  intros HU HV HC HR.
  pose proof (loginWithAppleHandler_verified env request id_token s s1 claims HU HV)
    as H. cbv zeta in H. rewrite HC, HR in H. rewrite H. simpl.
  eexists. split; [reflexivity|].
  unfold AppleLoginResponse.members. simpl.
  destruct (aws.ToString (cognito.AccessToken ar)) as [|a1 t1];
    destruct (aws.ToString (cognito.IdToken ar)) as [|a2 t2];
    destruct (aws.ToString (cognito.RefreshToken ar)) as [|a3 t3]; simpl;
    (split; [done|]);
    (split;
     [intros name v; rewrite list_elem_of_In; simpl;
      intuition (subst; simpl in *; try congruence; auto)|]);
    (split; [by repeat constructor|]);
    (split; [rewrite list_elem_of_In; simpl; intuition discriminate|]);
    split; split; try done; try (intros (? & ? & ?); done).
Qed.

Lemma X11_witness :
  exists members,
    fst (loginWithAppleHandler Cases.env_access_only (Demo.request "good") Demo.s0)
      = Responded {| status := 200; body := JSONObject members |}
    /\ members
       = List.filter (fun kv => negb (bool_decide (snd kv = EmptyString)))
           [("access_token", aws.ToString (Some "cognito-access"));
            ("id_token", aws.ToString None);
            ("refresh_token", aws.ToString (Some EmptyString))]
    /\ (forall name v,
          (name, v) ∈ members
          <-> v <> EmptyString
              /\ ((name = "access_token" /\ v = aws.ToString (Some "cognito-access"))
                  \/ (name = "id_token" /\ v = aws.ToString None)
                  \/ (name = "refresh_token" /\ v = aws.ToString (Some EmptyString))))
    /\ Forall (fun kv => snd kv <> EmptyString) members
    /\ ("message" ∉ (fst <$> members))
    /\ (tokens_shaped (JSONObject members) = true
        <-> aws.ToString (Some "cognito-access") <> EmptyString
            /\ aws.ToString None <> EmptyString
            /\ aws.ToString (Some EmptyString) <> EmptyString)
    /\ (members = []
        <-> aws.ToString (Some "cognito-access") = EmptyString
            /\ aws.ToString None = EmptyString
            /\ aws.ToString (Some EmptyString) = EmptyString).
Proof.
  apply (X11_apple_success_omits_empty_tokens Cases.env_access_only
           (Demo.request "good") "good" Demo.s0
           (push (EvLookupKeyID "W6WcOKB") (push (EvFetch apple_keys_url) Demo.s0))
           (Demo.alice (Some (Demo.now_sec + 3600)) (Some (VString Demo.app_audience)))
           {| cognito.AuthenticationResult :=
                Some {| cognito.AccessToken := Some "cognito-access";
                        cognito.IdToken := None;
                        cognito.RefreshToken := Some EmptyString |} |}
           {| cognito.AccessToken := Some "cognito-access";
              cognito.IdToken := None;
              cognito.RefreshToken := Some EmptyString |}).
  - vm_compute. reflexivity.
  - vm_compute. reflexivity.
  - reflexivity.
  - reflexivity.
Defined.

(** ** Requests do not see each other *)

Lemma push_prepend (e : Event) (history : list Event) (s : State) :
  push e (prepend history s) = prepend history (push e s).
Proof. unfold push, prepend. simpl. by rewrite app_assoc. Qed.

Lemma framed_ret {A} (a : A) : framed (ret a).
Proof. by intros history s. Qed.

Lemma framed_emit (e : Event) : framed (emit e).
Proof. intros history s. unfold emit. simpl. by rewrite push_prepend. Qed.

Lemma framed_read_global {A} (f : Globals -> A) : framed (read_global f).
Proof. by intros history s. Qed.

Lemma framed_os_Getenv (k : string) : framed (os_Getenv k).
Proof. by intros history s. Qed.

Lemma framed_bind {A B} (m : M A) (k : A -> M B) :
  framed m -> (forall a, framed (k a)) -> framed (bind m k).
Proof.
  intros Hm Hk history s. unfold bind.
  destruct (Hm history s) as (-> & HG & HE).
  destruct (m s) as [a s1]. simpl in *.
  destruct (Hk a history s1) as (-> & HG' & HE').
  split; [done|]. split; congruence.
Qed.

Create HintDb framed.
#[local] Hint Resolve framed_ret framed_emit framed_read_global framed_os_Getenv : framed.

Ltac frame :=
  repeat first
    [ solve [eauto with framed]
    | apply framed_bind; [|intros ?]
    | match goal with
      | |- framed (match ?x with _ => _ end) => destruct x
      end ].

Lemma framed_fetchAppleJWKSet (env : Env) : framed (fetchAppleJWKSet env).
Proof. unfold fetchAppleJWKSet. frame. Qed.

Lemma framed_keyFunc (env : Env) (set : jwk.Set_) (t : jwt.Token) :
  framed (keyFunc env set t).
Proof. unfold keyFunc. frame. Qed.

Lemma framed_jwt_Parse (env : Env) (tokenString : string)
    (kf : jwt.Token -> M (result jwk.PublicKey)) :
  (forall t, framed (kf t)) -> framed (jwt_Parse env tokenString kf).
Proof. intros Hkf. unfold jwt_Parse. frame. Qed.

#[local] Hint Resolve framed_fetchAppleJWKSet framed_keyFunc framed_jwt_Parse : framed.

Lemma framed_verifyAppleIDToken (env : Env) (tokenString audience : string) :
  framed (verifyAppleIDToken env tokenString audience).
Proof. unfold verifyAppleIDToken. frame. Qed.

#[local] Hint Resolve framed_verifyAppleIDToken : framed.

Lemma framed_loginWithAppleHandler (env : Env) (request : string) :
  framed (loginWithAppleHandler env request).
Proof. unfold loginWithAppleHandler. frame. Qed.

Lemma framed_loginWithGoogleHandler (env : Env) (request : string) :
  framed (loginWithGoogleHandler env request).
Proof. unfold loginWithGoogleHandler. frame. Qed.

Lemma new_events_prepend (history : list Event) (s s' : State) :
  events s = [] ->
  new_events (prepend history s) (prepend history s') = events s'.
Proof.
  intros H. unfold new_events, prepend. simpl. rewrite H, app_nil_r.
  by rewrite drop_app_length.
Qed.

Lemma prepend_fresh (s : State) : prepend (events s) (fresh s) = s.
Proof. destruct s. unfold prepend, fresh. simpl. by rewrite app_nil_r. Qed.

(** A framed computation gives the same result and adds the same events
    from any two states with the same globals and environment. *)
Lemma framed_same_config {A} (m : M A) (s s' : State) :
  framed m ->
  globals s = globals s' -> environ s = environ s' ->
  fst (m s) = fst (m s')
  /\ new_events s (snd (m s)) = new_events s' (snd (m s')).
Proof.
  intros Hm HG HE.
  assert (fresh s = fresh s') as Hf by (unfold fresh; by rewrite HG, HE).
  rewrite <- (prepend_fresh s), <- (prepend_fresh s').
  destruct (Hm (events s) (fresh s)) as (-> & _).
  destruct (Hm (events s') (fresh s')) as (-> & _).
  simpl. rewrite !new_events_prepend by done. by rewrite Hf.
Qed.

Lemma mux_handler_cases (path : string) (h : Env -> string -> M Outcome) :
  mux_handler path = Some h ->
  (path = "/auth/loginWithGoogle" /\ h = loginWithGoogleHandler)
  \/ (path = "/auth/loginWithApple" /\ h = loginWithAppleHandler).
Proof.
  unfold mux_handler, routes. simpl.
  destruct (decide ("/auth/loginWithGoogle" = path)) as [<-|H1].
  - simpl. intros H. inversion H. by left.
  - rewrite bool_decide_eq_false_2 by done.
    destruct (decide ("/auth/loginWithApple" = path)) as [<-|H2].
    + simpl. intros H. inversion H. by right.
    + rewrite bool_decide_eq_false_2 by done. discriminate.
Qed.

(** X13: requests do not see each other.  Whatever request was served
    before, on either route, the next request gets the outcome and makes
    the calls it would have got and made alone: nothing of a request is
    kept, the key set fetched for one Apple request is fetched again for
    the next. *)
Theorem X13_requests_are_independent (env : Env) (path1 path2 : string)
    (h1 h2 : Env -> string -> M Outcome) (request1 request2 : string) (s : State) :
  mux_handler path1 = Some h1 ->
  mux_handler path2 = Some h2 ->
  fst (h2 env request2 (snd (h1 env request1 s))) = fst (h2 env request2 s)
  /\ new_events (snd (h1 env request1 s))
       (snd (h2 env request2 (snd (h1 env request1 s))))
     = new_events s (snd (h2 env request2 s))
  /\ events (snd (h2 env request2 (snd (h1 env request1 s))))
     = events s ++ new_events s (snd (h1 env request1 s))
         ++ new_events s (snd (h2 env request2 s)).
Proof.
  intros H1 H2.
  assert (forall r, framed (h1 env r)) as F1.
  { destruct (mux_handler_cases _ _ H1) as [[_ ->]|[_ ->]]; intros r;
      [apply framed_loginWithGoogleHandler | apply framed_loginWithAppleHandler]. }
  assert (forall r, framed (h2 env r)) as F2.
  { destruct (mux_handler_cases _ _ H2) as [[_ ->]|[_ ->]]; intros r;
      [apply framed_loginWithGoogleHandler | apply framed_loginWithAppleHandler]. }
  assert (forall (m : M Outcome) t, framed m ->
            events (snd (m t)) = events t ++ new_events t (snd (m t))) as Hgrow.
  { intros m t Hm. destruct (Hm (events t) (fresh t)) as (Heq & _).
    rewrite (prepend_fresh t) in Heq. rewrite Heq. unfold new_events. simpl.
    by rewrite drop_app_length. }
  destruct (F1 request1 [] s) as (_ & HG & HE).
  destruct (framed_same_config (h2 env request2) (snd (h1 env request1 s)) s
              (F2 request2) HG HE) as [Hout Hnew].
  split; [exact Hout|]. split; [exact Hnew|].
  rewrite (Hgrow _ _ (F2 request2)), Hnew.
  rewrite (Hgrow _ _ (F1 request1)). by rewrite <- app_assoc.
Qed.

Lemma X13_witness :
  fst (loginWithAppleHandler Demo.env (Demo.request "good")
         (snd (loginWithAppleHandler Demo.env (Demo.request "good") Demo.s0)))
    = fst (loginWithAppleHandler Demo.env (Demo.request "good") Demo.s0)
  /\ new_events (snd (loginWithAppleHandler Demo.env (Demo.request "good") Demo.s0))
       (snd (loginWithAppleHandler Demo.env (Demo.request "good")
               (snd (loginWithAppleHandler Demo.env (Demo.request "good") Demo.s0))))
     = new_events Demo.s0
         (snd (loginWithAppleHandler Demo.env (Demo.request "good") Demo.s0))
  /\ events (snd (loginWithAppleHandler Demo.env (Demo.request "good")
                    (snd (loginWithAppleHandler Demo.env (Demo.request "good") Demo.s0))))
     = events Demo.s0
         ++ new_events Demo.s0
              (snd (loginWithAppleHandler Demo.env (Demo.request "good") Demo.s0))
         ++ new_events Demo.s0
              (snd (loginWithAppleHandler Demo.env (Demo.request "good") Demo.s0)).
Proof.
  apply (X13_requests_are_independent Demo.env "/auth/loginWithApple"
           "/auth/loginWithApple" loginWithAppleHandler loginWithAppleHandler
           (Demo.request "good") (Demo.request "good") Demo.s0).
  - reflexivity.
  - reflexivity.
Defined.

(** ** Start-up *)

(** X14: [init] panics exactly when one of the two configuration loads
    fails, never because a variable is missing from the environment.  When it
    returns, the Google and the Apple side hold the same user pool id and
    the same client id, read from [COGNITO_USER_POOL_ID] and
    [COGNITO_APP_CLIENT_ID]; the Google client id is [GOOGLE_CLIENT_ID]; a
    variable that is not set gives the empty string; whatever the variables
    held before is overwritten, and the environment and the log are left as
    they were. *)
Theorem X14_init_sets_the_globals (cfg cfgApple : result unit) (s : State) :
  (fst (init cfg cfgApple s) = Initialised
   <-> is_Err cfg = false /\ is_Err cfgApple = false)
  /\ (fst (init cfg cfgApple s) = Initialised ->
      globals (snd (init cfg cfgApple s))
        = {| userPoolID := default EmptyString (environ s !! "COGNITO_USER_POOL_ID");
             clientID := default EmptyString (environ s !! "COGNITO_APP_CLIENT_ID");
             googleClientID := default EmptyString (environ s !! "GOOGLE_CLIENT_ID");
             userPoolIDApple := default EmptyString (environ s !! "COGNITO_USER_POOL_ID");
             clientIDApple := default EmptyString (environ s !! "COGNITO_APP_CLIENT_ID") |})
  /\ environ (snd (init cfg cfgApple s)) = environ s
  /\ events (snd (init cfg cfgApple s)) = events s.
Proof.
  unfold init, initApple. run. unfold write_global.
  destruct cfg as [c|e]; simpl.
  - destruct cfgApple as [c'|e']; simpl.
    + repeat split; auto.
    + repeat split; auto; try discriminate. by intros [_ ?].
  - repeat split; auto; try discriminate. by intros [? _].
Qed.

Lemma X14_witness :
  globals (snd (init (Ok tt) (Ok tt) Cases.boot))
    = {| userPoolID := "eu-west-1_pool";
         clientID := EmptyString;
         googleClientID := EmptyString;
         userPoolIDApple := "eu-west-1_pool";
         clientIDApple := EmptyString |}.
Proof.
  destruct (X14_init_sets_the_globals (Ok tt) (Ok tt) Cases.boot) as (_ & H & _).
  rewrite H; reflexivity.
Defined.

(** X15: start-up followed by a request.  After [init], a Google request
    whose body decodes is validated against the [GOOGLE_CLIENT_ID] of the
    environment [init] ran in, the empty string if it was not set; and every
    call of [InitiateAuth], on either route, carries the
    [COGNITO_APP_CLIENT_ID] of that environment as its client id, with the
    flow USER_SRP_AUTH on the Google route and CUSTOM_AUTH on the Apple
    route. *)
Theorem X15_requests_use_the_start_up_configuration (env : Env)
    (cfg cfgApple : result unit) (s : State) (request id_token : string) :
  fst (init cfg cfgApple s) = Initialised ->
  json_Unmarshal env request = Ok id_token ->
  (exists rest,
     new_events (snd (init cfg cfgApple s))
       (snd (loginWithGoogleHandler env request (snd (init cfg cfgApple s))))
     = EvIdtokenValidate (default EmptyString (environ s !! "GOOGLE_CLIENT_ID")) :: rest
     /\ forall input,
          EvInitiateAuth input ∈ rest ->
          cognito.ClientId input
            = default EmptyString (environ s !! "COGNITO_APP_CLIENT_ID")
          /\ cognito.AuthFlow input = "USER_SRP_AUTH")
  /\ (forall input,
        EvInitiateAuth input
          ∈ new_events (snd (init cfg cfgApple s))
              (snd (loginWithAppleHandler env request (snd (init cfg cfgApple s)))) ->
        cognito.ClientId input
          = default EmptyString (environ s !! "COGNITO_APP_CLIENT_ID")
        /\ cognito.AuthFlow input = "CUSTOM_AUTH").
Proof.
  intros HI HU.
  assert (globals (snd (init cfg cfgApple s))
          = {| userPoolID := default EmptyString (environ s !! "COGNITO_USER_POOL_ID");
               clientID := default EmptyString (environ s !! "COGNITO_APP_CLIENT_ID");
               googleClientID := default EmptyString (environ s !! "GOOGLE_CLIENT_ID");
               userPoolIDApple := default EmptyString (environ s !! "COGNITO_USER_POOL_ID");
               clientIDApple := default EmptyString (environ s !! "COGNITO_APP_CLIENT_ID") |})
    as HG.
  { revert HI. unfold init, initApple. run. unfold write_global.
    destruct cfg; simpl; [|discriminate]. by destruct cfgApple. }
  set (s' := snd (init cfg cfgApple s)) in *. clearbody s'.
  split.
  - unfold loginWithGoogleHandler. rewrite HU. run. rewrite HG. simpl.
    destruct (idtoken_Validate env id_token _) as [payload|e]; simpl.
    2:{ exists []. rewrite new_events_push. split; [done|].
        intros input Hin. by apply elem_of_nil in Hin. }
    destruct (as_string (idtoken.Claims payload !! "email")) as [email|]; simpl.
    2:{ exists []. rewrite new_events_push. split; [done|].
        intros input Hin. by apply elem_of_nil in Hin. }
    match goal with
    | |- context [cognito_InitiateAuth env ?i] =>
        exists [EvInitiateAuth i]; split
    end.
    + destruct (cognito_InitiateAuth env _) as [resp|e]; simpl;
        [destruct (cognito.AuthenticationResult resp)|]; simpl;
        (erewrite new_events_app; [reflexivity|simpl; by rewrite <- app_assoc]).
    + intros input Hin. apply list_elem_of_In in Hin. simpl in Hin.
      destruct Hin as [Hin|[]]. inversion Hin; subst input. simpl.
      by rewrite HG.
  - intros input.
    destruct (verifyAppleIDToken env id_token
                (default EmptyString (environ s' !! "APPLE_CLIENT_ID")) s')
      as [[claims|err] s1] eqn:HV.
    + rewrite (loginWithAppleHandler_verified env request id_token s' s1 claims HU HV).
      pose proof (verifyAppleIDToken_state env id_token
                    (default EmptyString (environ s' !! "APPLE_CLIENT_ID")) s')
        as (HG1 & _). rewrite HV in HG1. simpl in HG1.
      apply verifyAppleIDToken_Ok_events in HV as [keyID Hs1].
      simpl. rewrite HG1, HG. simpl. rewrite Hs1.
      erewrite new_events_app; [|simpl; rewrite <- !app_assoc; simpl; reflexivity].
      intros Hin. apply list_elem_of_In in Hin. simpl in Hin.
      destruct Hin as [Hin|[Hin|[Hin|[Hin|[]]]]]; try discriminate.
      by inversion Hin.
    + rewrite (loginWithAppleHandler_unverified env request id_token s' s1 err HU HV).
      simpl.
      pose proof (verifyAppleIDToken_state env id_token
                    (default EmptyString (environ s' !! "APPLE_CLIENT_ID")) s')
        as (_ & _ & He). rewrite HV in He. simpl in He.
      destruct He as [He|[k He]]; rewrite (new_events_app _ _ _ He);
        intros Hin; apply list_elem_of_In in Hin; simpl in Hin;
        intuition discriminate.
Qed.

Lemma X15_witness :
  (exists rest,
     new_events (snd (init (Ok tt) (Ok tt) Cases.boot_configured))
       (snd (loginWithGoogleHandler Demo.env (Demo.request "google-bob")
               (snd (init (Ok tt) (Ok tt) Cases.boot_configured))))
     = EvIdtokenValidate
         (default EmptyString (environ Cases.boot_configured !! "GOOGLE_CLIENT_ID")) :: rest
     /\ forall input,
          EvInitiateAuth input ∈ rest ->
          cognito.ClientId input
            = default EmptyString (environ Cases.boot_configured !! "COGNITO_APP_CLIENT_ID")
          /\ cognito.AuthFlow input = "USER_SRP_AUTH")
  /\ (forall input,
        EvInitiateAuth input
          ∈ new_events (snd (init (Ok tt) (Ok tt) Cases.boot_configured))
              (snd (loginWithAppleHandler Demo.env (Demo.request "google-bob")
                      (snd (init (Ok tt) (Ok tt) Cases.boot_configured)))) ->
        cognito.ClientId input
          = default EmptyString (environ Cases.boot_configured !! "COGNITO_APP_CLIENT_ID")
        /\ cognito.AuthFlow input = "CUSTOM_AUTH").
Proof.
  apply (X15_requests_use_the_start_up_configuration Demo.env (Ok tt) (Ok tt)
           Cases.boot_configured (Demo.request "google-bob") "google-bob").
  - reflexivity.
  - vm_compute. reflexivity.
Defined.

(** ** The bodies of the Apple handler *)

Lemma string_app_assoc (a b c : string) : (a +:+ b) +:+ c = a +:+ (b +:+ c).
Proof. induction a as [|x a IH]; [done|]. change (String x ((a +:+ b) +:+ c) = String x (a +:+ (b +:+ c))). by f_equal. Qed.

Lemma rev_app_acc (a acc : string) :
  String.rev_app a acc = String.rev_app a EmptyString +:+ acc.
Proof.
  revert acc. induction a as [|x a IH]; intros acc; simpl; [done|].
  rewrite (IH (String x acc)), (IH (String x EmptyString)).
  by rewrite string_app_assoc.
Qed.

Lemma rev_app_app (a b acc : string) :
  String.rev_app (a +:+ b) acc = String.rev_app b (String.rev_app a acc).
Proof. revert acc. induction a as [|x a IH]; intros acc; simpl; [done|]. apply IH. Qed.

Lemma has_prefix_app (p t : string) : has_prefix p (p +:+ t) = true.
Proof.
  induction p as [|x p IH]; simpl; [done|].
  by rewrite bool_decide_eq_true_2, IH.
Qed.

Lemma has_suffix_app (t p : string) : has_suffix p (t +:+ p) = true.
Proof.
  unfold has_suffix, String.rev.
  rewrite rev_app_app, (rev_app_acc p (String.rev_app t EmptyString)).
  apply has_prefix_app.
Qed.

Lemma apple_error_body_shaped (err : error) :
  error_shaped_text (apple_error_body err) = true.
Proof.
  unfold error_shaped_text. apply andb_true_intro. split.
  - vm_compute. reflexivity.
  - unfold apple_error_body.
    rewrite <- !string_app_assoc. rewrite string_app_assoc.
    apply has_suffix_app.
Qed.

(** X16: every answer of the Apple handler that is not a 200 is a 400 or a
    401 whose body opens an object at its one member [error] and closes it
    after the message; every 200 is an encoded object none of whose members
    is named [error]. *)
Theorem X16_apple_error_bodies (env : Env) (request : string) (s : State) :
  match fst (loginWithAppleHandler env request s) with
  | Responded r =>
      (status r = StatusOK
       /\ (exists members,
             body r = JSONObject members /\ "error" ∉ (fst <$> members))
       /\ error_shaped (body r) = false)
      \/ ((status r = StatusBadRequest \/ status r = StatusUnauthorized)
          /\ (exists msg, body r = Text msg)
          /\ error_shaped (body r) = true)
  | Panicked _ => True
  end.
Proof.
  destruct (json_Unmarshal env request) as [id_token|e] eqn:HU.
  2:{ unfold loginWithAppleHandler. rewrite HU. simpl. right.
      split; [by left|]. split; [by eexists|]. vm_compute. reflexivity. }
  destruct (verifyAppleIDToken env id_token
              (default EmptyString (environ s !! "APPLE_CLIENT_ID")) s)
    as [[claims|err] s1] eqn:HV.
  - rewrite (loginWithAppleHandler_verified env request id_token s s1 claims HU HV).
    simpl.
    destruct (cognito_InitiateAuth env _) as [resp|e]; simpl.
    + destruct (cognito.AuthenticationResult resp) as [ar|]; simpl; [|done].
      left. split; [done|].
      unfold AppleLoginResponse.members. simpl.
      destruct (aws.ToString (cognito.AccessToken ar)) as [|a1 t1];
        destruct (aws.ToString (cognito.IdToken ar)) as [|a2 t2];
        destruct (aws.ToString (cognito.RefreshToken ar)) as [|a3 t3]; simpl;
        (split;
         [eexists; split;
          [reflexivity | rewrite list_elem_of_In; simpl; intuition discriminate]
         | vm_compute; reflexivity]).
    + left. split; [done|]. split; [|vm_compute; reflexivity].
      eexists. split; [reflexivity|].
      rewrite list_elem_of_In. simpl. intuition discriminate.
  - rewrite (loginWithAppleHandler_unverified env request id_token s s1 err HU HV).
    simpl. right. split; [by right|]. split; [by eexists|].
    apply apple_error_body_shaped.
Qed.

(** ** Tokens that do not decode *)

(** X17: an [id_token] that golang-jwt cannot decode is answered 401 with
    the library's message after the two prefixes; the key set has been
    fetched for it all the same, and no key was looked up. *)
Theorem X17_undecodable_token (env : Env) (request id_token : string) (s : State)
    (set : jwk.Set_) (e : error) :
  json_Unmarshal env request = Ok id_token ->
  jwk_Fetch env apple_keys_url = Ok set ->
  jwt_ParseUnverified env id_token = Err e ->
  loginWithAppleHandler env request s
    = (Responded
         {| status := 401;
            body := Text ("{" +:+ dq +:+ "error" +:+ dq +:+ ": " +:+ dq
                            +:+ "apple token verification failed: "
                            +:+ "apple token validation failed: " +:+ Error e
                            +:+ dq +:+ "}") |},
       push (EvFetch apple_keys_url) s).
Proof.
  intros HU HF HP.
  rewrite (loginWithAppleHandler_unverified env request id_token s
             (push (EvFetch apple_keys_url) s) (err_validation_failed e) HU);
    [done|].
  rewrite verifyAppleIDToken_run, HF.
  by rewrite (jwt_Parse_undecodable env id_token _ _ e HP).
Qed.

Lemma X17_witness :
  loginWithAppleHandler Demo.env "{}" Demo.s0
    = (Responded
         {| status := 401;
            body := Text ("{" +:+ dq +:+ "error" +:+ dq +:+ ": " +:+ dq
                            +:+ "apple token verification failed: "
                            +:+ "apple token validation failed: "
                            +:+ "token contains an invalid number of segments"
                            +:+ dq +:+ "}") |},
       push (EvFetch apple_keys_url) Demo.s0).
Proof.
  apply (X17_undecodable_token Demo.env "{}" EmptyString Demo.s0 Demo.apple_set
           (ValidationError
              (Some (errorString "token contains an invalid number of segments"))
              jwt.ValidationErrorMalformed EmptyString)).
  - vm_compute. reflexivity.
  - reflexivity.
  - vm_compute. reflexivity.
Defined.

(** ** The Google route after validation *)

(** X18: on the Google route a failed exchange is an authentication
    failure: when the token validated, carries a string [email], and
    [InitiateAuth] returns an error, the answer is 401 with the plain text
    "cognito auth error: " and the error's message (the Apple route answers
    200 in the same situation).  The one exchange made carried the validated
    token itself, the email as user name and the provider name Google. *)
Theorem X18_google_exchange_failure_is_401 (env : Env) (request id_token : string)
    (s : State) (payload : idtoken.Payload) (email : string) (err : error) :
  json_Unmarshal env request = Ok id_token ->
  idtoken_Validate env id_token (googleClientID (globals s)) = Ok payload ->
  idtoken.Claims payload !! "email" = Some (VString email) ->
  cognito_InitiateAuth env
    {| cognito.AuthFlow := "USER_SRP_AUTH";
       cognito.ClientId := clientID (globals s);
       cognito.AuthParameters :=
         <[ "IDENTITY_PROVIDER" := "Google" ]>
           (<[ "USERNAME" := email ]> {[ "ID_TOKEN" := id_token ]}) |} = Err err ->
  fst (loginWithGoogleHandler env request s)
    = Responded {| status := 401; body := Text ("cognito auth error: " +:+ Error err) |}
  /\ exists input,
       new_events s (snd (loginWithGoogleHandler env request s))
         = [EvIdtokenValidate (googleClientID (globals s)); EvInitiateAuth input]
       /\ cognito.AuthParameters input !! "ID_TOKEN" = Some id_token
       /\ cognito.AuthParameters input !! "USERNAME" = Some email
       /\ cognito.AuthParameters input !! "IDENTITY_PROVIDER" = Some "Google"
       /\ size (cognito.AuthParameters input) = 3%nat.
Proof.
  intros HU HV HE HC.
  pose proof (loginWithGoogleHandler_verified env request id_token s payload email
                HU HV HE) as H.
  cbv zeta in H. rewrite HC in H. rewrite H. simpl. split; [done|].
  eexists. split.
  - apply new_events_app. simpl. by rewrite <- app_assoc.
  - simpl. split; [|split; [|split]].
    + by rewrite lookup_insert_ne, lookup_insert_ne, lookup_singleton_eq.
    + by rewrite lookup_insert_ne, lookup_insert_eq.
    + by rewrite lookup_insert_eq.
    + rewrite !map_size_insert_None, map_size_singleton; [done| |].
      * by rewrite lookup_singleton_ne.
      * by rewrite lookup_insert_ne, lookup_singleton_ne.
Qed.

Lemma X18_witness :
  fst (loginWithGoogleHandler Demo.env_no_cognito (Demo.request "google-bob") Demo.s0)
    = Responded
        {| status := 401;
           body := Text ("cognito auth error: "
                           +:+ "operation error: request send failed") |}
  /\ exists input,
       new_events Demo.s0
         (snd (loginWithGoogleHandler Demo.env_no_cognito
                 (Demo.request "google-bob") Demo.s0))
         = [EvIdtokenValidate (googleClientID (globals Demo.s0)); EvInitiateAuth input]
       /\ cognito.AuthParameters input !! "ID_TOKEN" = Some "google-bob"
       /\ cognito.AuthParameters input !! "USERNAME" = Some "bob@example.com"
       /\ cognito.AuthParameters input !! "IDENTITY_PROVIDER" = Some "Google"
       /\ size (cognito.AuthParameters input) = 3%nat.
Proof.
  apply (X18_google_exchange_failure_is_401 Demo.env_no_cognito
           (Demo.request "google-bob") "google-bob" Demo.s0
           {| idtoken.Subject := "1122";
              idtoken.Claims := {[ "email" := VString "bob@example.com" ]} |}
           "bob@example.com" (errorString "operation error: request send failed")).
  - vm_compute. reflexivity.
  - vm_compute. reflexivity.
  - vm_compute. reflexivity.
  - reflexivity.
Defined.

(** X19: on a successful exchange the Google handler answers 200 with the
    three members in the order access, id, refresh, whatever Cognito gave:
    a token Cognito left out is written as the empty string, where the
    Apple handler drops it. *)
Theorem X19_google_success_writes_three_members (env : Env)
    (request id_token : string) (s : State) (payload : idtoken.Payload)
    (email : string) (resp : cognito.InitiateAuthOutput)
    (ar : cognito.AuthenticationResultType) :
  json_Unmarshal env request = Ok id_token ->
  idtoken_Validate env id_token (googleClientID (globals s)) = Ok payload ->
  idtoken.Claims payload !! "email" = Some (VString email) ->
  cognito_InitiateAuth env
    {| cognito.AuthFlow := "USER_SRP_AUTH";
       cognito.ClientId := clientID (globals s);
       cognito.AuthParameters :=
         <[ "IDENTITY_PROVIDER" := "Google" ]>
           (<[ "USERNAME" := email ]> {[ "ID_TOKEN" := id_token ]}) |} = Ok resp ->
  cognito.AuthenticationResult resp = Some ar ->
  fst (loginWithGoogleHandler env request s)
    = Responded
        {| status := 200;
           body := JSONObject
             [("access_token", default EmptyString (cognito.AccessToken ar));
              ("id_token", default EmptyString (cognito.IdToken ar));
              ("refresh_token", default EmptyString (cognito.RefreshToken ar))] |}
  /\ tokens_shaped
       (JSONObject
          [("access_token", default EmptyString (cognito.AccessToken ar));
           ("id_token", default EmptyString (cognito.IdToken ar));
           ("refresh_token", default EmptyString (cognito.RefreshToken ar))])
     = true.
Proof.
  intros HU HV HE HC HR.
  pose proof (loginWithGoogleHandler_verified env request id_token s payload email
                HU HV HE) as H.
  cbv zeta in H. rewrite HC, HR in H. rewrite H. simpl.
  split; [done|]. vm_compute. reflexivity.
Qed.

Lemma X19_witness :
  fst (loginWithGoogleHandler Cases.env_access_only (Demo.request "google-bob") Demo.s0)
    = Responded
        {| status := 200;
           body := JSONObject
             [("access_token", "cognito-access");
              ("id_token", EmptyString);
              ("refresh_token", EmptyString)] |}.
Proof.
  destruct (X19_google_success_writes_three_members Cases.env_access_only
              (Demo.request "google-bob") "google-bob" Demo.s0
              {| idtoken.Subject := "1122";
                 idtoken.Claims := {[ "email" := VString "bob@example.com" ]} |}
              "bob@example.com"
              {| cognito.AuthenticationResult :=
                   Some {| cognito.AccessToken := Some "cognito-access";
                           cognito.IdToken := None;
                           cognito.RefreshToken := Some EmptyString |} |}
              {| cognito.AccessToken := Some "cognito-access";
                 cognito.IdToken := None;
                 cognito.RefreshToken := Some EmptyString |}) as [H _].
  - vm_compute. reflexivity.
  - vm_compute. reflexivity.
  - vm_compute. reflexivity.
  - reflexivity.
  - reflexivity.
  - exact H.
Defined.
